(** * gfx.ts : the 4x4 transform matrix of [src/math/matrix4.ts]

    A shallow embedding of the [Matrix4] class and the properties of its
    operations.

    - A TypeScript [number] is an IEEE 754 binary64 value: Rocq's primitive
      [float], whose [+ - * / sqrt] are the correctly rounded operations that
      JavaScript prescribes, and whose [=?], [<?], [<=?] are its [===], [<],
      [<=] on numbers.
    - A [number[]] is a mutable object: arrays live in a heap, and a variable
      of array type holds a location. Reads and writes go through the heap, so
      that two names for one array see each other's writes.
    - A [Matrix4] owns exactly one array ([private readonly _val]), allocated
      by its constructor and never replaced: an instance is identified with
      the location of its [_val].
    - [throw new Error(msg)] ends the call with the heap as it is at the
      throw. *)

From Stdlib Require Import Floats ZArith Lia String.
From stdpp Require Import gmap list.

(** ** Numbers *)

(** Reading past the end of a JavaScript array yields [undefined], which every
    arithmetic operator turns into NaN. *)
#[global] Instance float_inhabited : Inhabited float := populate nan.

(** [m[i]] on an array value. *)
Notation "m .[ i ]" := (lookup_total (i%nat) m)
  (at level 1, left associativity, format "m .[ i ]").

(** [Math.PI], the binary64 value nearest to pi. *)
Definition Math_PI : float := 0x1.921fb54442d18p+1%float.

(** ** The heap of arrays and the monad of method bodies *)

Abbreviation loc := positive.
Abbreviation heap := (gmap loc (list float)).

(** A thrown [Error] carries its message. *)
Inductive exn : Type := Error (message : string).

Inductive outcome (A : Type) : Type :=
  | Ok (a : A) (σ : heap)
  | Throw (e : exn) (σ : heap).
Arguments Ok {A} a σ.
Arguments Throw {A} e σ.

Definition js (A : Type) : Type := heap → outcome A.

#[global] Instance js_ret : MRet js := λ A a σ, Ok a σ.
#[global] Instance js_bind : MBind js := λ A B f m σ,
  match m σ with
  | Ok a σ' => f a σ'
  | Throw e σ' => Throw e σ'
  end.

Definition throw {A} (e : exn) : js A := λ σ, Throw e σ.

(** [[v0, v1, ...]]: an array literal allocates a new array. *)
Definition new_Array (vs : list float) : js loc := λ σ,
  let l := fresh (dom σ) in Ok l (<[l := vs]> σ).

(** The whole array behind a location, as it is now. *)
Definition deref (a : loc) : js (list float) := λ σ, Ok (σ !!! a) σ.

(** [a[i]] *)
Definition load (a : loc) (i : nat) : js float := λ σ, Ok ((σ !!! a).[i]) σ.

(** [a[i] = v], for [i] below the length (the only writes of [Matrix4]). *)
Definition store (a : loc) (i : nat) (v : float) : js unit := λ σ,
  Ok () (<[a := <[i := v]> (σ !!! a)]> σ).

(** [a.length] *)
Definition length_of (a : loc) : js nat := λ σ, Ok (length (σ !!! a)) σ.

(** ** The consumed value types *)

Module Vector3.
Record t : Type := mk { x : float; y : float; z : float }.

(** Modelled from the spec: [vector3.ts] is not among the sources; the zero
    constant. *)
Definition ZERO : t := mk 0 0 0.

(** Modelled from the spec: [vector3.ts] is not among the sources;
    [len(x,y,z) = sqrt(x²+y²+z²)]. *)
Definition len (x y z : float) : float := sqrt (x * x + y * y + z * z)%float.

(** Modelled from the spec: [vector3.ts] is not among the sources; the
    in-place [set(x,y,z)] of an output vector, as the value it then holds. *)
Definition set (_ : t) (x y z : float) : t := mk x y z.
End Vector3.

Module Quaternion.
Record t : Type := mk { x : float; y : float; z : float; w : float }.

(** Modelled from the spec: [quaternion.ts] is not among the sources; the
    in-place [set(x,y,z,w)], as the value the quaternion then holds. *)
Definition set (_ : t) (x y z w : float) : t := mk x y z w.

Definition neg (q : t) : t := mk (- x q) (- y q) (- z q) (- w q)%float.
End Quaternion.

(** ** Matrix4 *)

Module Matrix4.

Record Matrix4Json : Type := {
  m00 : float; m10 : float; m20 : float; m30 : float;
  m01 : float; m11 : float; m21 : float; m31 : float;
  m02 : float; m12 : float; m22 : float; m32 : float;
  m03 : float; m13 : float; m23 : float; m33 : float
}.

Definition InvalidArgument : exn :=
  Error "Matrix4.fromArray(number[]) - provided argument length must be >= 16".

Definition SingularMatrix : exn :=
  Error "Matrix4.invert() - cannot invert Matrix as determinant is 0".

(** [new Matrix4()] *)
Definition constructor : js loc :=
  new_Array [1; 0; 0; 0;
             0; 1; 0; 0;
             0; 0; 1; 0;
             0; 0; 0; 1]%float.

Definition serialise (this : loc) : js Matrix4Json :=
  m ← deref this;
  mret {| m00 := m.[0]; m10 := m.[1]; m20 := m.[2]; m30 := m.[3];
          m01 := m.[4]; m11 := m.[5]; m21 := m.[6]; m31 := m.[7];
          m02 := m.[8]; m12 := m.[9]; m22 := m.[10]; m32 := m.[11];
          m03 := m.[12]; m13 := m.[13]; m23 := m.[14]; m33 := m.[15] |}.

Definition set (this : loc)
    (m00 m01 m02 m03 m10 m11 m12 m13 m20 m21 m22 m23 m30 m31 m32 m33 : float)
    : js loc :=
  let m := this in
  store m 0 m00;; store m 1 m10;; store m 2 m20;; store m 3 m30;;
  store m 4 m01;; store m 5 m11;; store m 6 m21;; store m 7 m31;;
  store m 8 m02;; store m 9 m12;; store m 10 m22;; store m 11 m32;;
  store m 12 m03;; store m 13 m13;; store m 14 m23;; store m 15 m33;;
  mret this.

Definition deserialise (this : loc) (values : Matrix4Json) : js loc :=
  set this
    (m00 values) (m01 values) (m02 values) (m03 values)
    (m10 values) (m11 values) (m12 values) (m13 values)
    (m20 values) (m21 values) (m22 values) (m23 values)
    (m30 values) (m31 values) (m32 values) (m33 values).

(** [Matrix4.deserialise(values)], the static factory. *)
Definition static_deserialise (values : Matrix4Json) : js loc :=
  this ← constructor; deserialise this values.

Section Projection.
(** [Math.tan]: the language leaves its rounding to the implementation. *)
Variable Math_tan : float → float.

Definition setToProjection (this : loc) (near far fov aspect : float)
    : js loc :=
  let fd := (1 / Math_tan ((fov * (Math_PI / 180)) / 2))%float in
  let a1 := ((far + near) / (near - far))%float in
  let a2 := ((2 * far * near) / (near - far))%float in
  let m := this in
  store m 0 (fd / aspect)%float;;
  store m 1 0%float;; store m 2 0%float;; store m 3 0%float;;
  store m 4 0%float;;
  store m 5 fd;;
  store m 6 0%float;; store m 7 0%float;; store m 8 0%float;;
  store m 9 0%float;;
  store m 10 a1;;
  store m 11 (-1)%float;;
  store m 12 0%float;; store m 13 0%float;;
  store m 14 a2;;
  store m 15 0%float;;
  mret this.
End Projection.

Definition composePosRotSca (this : loc) (position : Vector3.t)
    (rotation : Quaternion.t) (scale : Vector3.t) : js loc :=
  let xs := (Quaternion.x rotation * 2)%float in
  let ys := (Quaternion.y rotation * 2)%float in
  let zs := (Quaternion.z rotation * 2)%float in
  let wx := (Quaternion.w rotation * xs)%float in
  let wy := (Quaternion.w rotation * ys)%float in
  let wz := (Quaternion.w rotation * zs)%float in
  let xx := (Quaternion.x rotation * xs)%float in
  let xy := (Quaternion.x rotation * ys)%float in
  let xz := (Quaternion.x rotation * zs)%float in
  let yy := (Quaternion.y rotation * ys)%float in
  let yz := (Quaternion.y rotation * zs)%float in
  let zz := (Quaternion.z rotation * zs)%float in
  let m := this in
  store m 0 (Vector3.x scale * (1 - (yy + zz)))%float;;
  store m 4 (Vector3.y scale * (xy - wz))%float;;
  store m 8 (Vector3.z scale * (xz + wy))%float;;
  store m 12 (Vector3.x position);;
  store m 1 (Vector3.x scale * (xy + wz))%float;;
  store m 5 (Vector3.y scale * (1 - (xx + zz)))%float;;
  store m 9 (Vector3.z scale * (yz - wx))%float;;
  store m 13 (Vector3.y position);;
  store m 2 (Vector3.x scale * (xz - wy))%float;;
  store m 6 (Vector3.y scale * (yz + wx))%float;;
  store m 10 (Vector3.z scale * (1 - (xx + yy)))%float;;
  store m 14 (Vector3.z position);;
  store m 3 0%float;; store m 7 0%float;; store m 11 0%float;;
  store m 15 1%float;;
  mret this.

(** The three output objects are returned as the values they hold after the
    call: (position, rotation, scale). *)
Definition decomposePosRotSca (this : loc) (position : Vector3.t)
    (rotation : Quaternion.t) (scale : Vector3.t)
    : js (Vector3.t * Quaternion.t * Vector3.t) :=
  val ← deref this;
  let xx := val.[0] in let xy := val.[1] in let xz := val.[2] in
  let yx := val.[4] in let yy := val.[5] in let yz := val.[6] in
  let zx := val.[8] in let zy := val.[9] in let zz := val.[10] in
  let sx := Vector3.len xx xy xz in
  let sy := Vector3.len yx yy yz in
  let sz := Vector3.len zx zy zz in
  let lx := (1 / sx)%float in
  let ly := (1 / sy)%float in
  let lz := (1 / sz)%float in
  let sxx := (xx * lx)%float in
  let sxy := (xy * lx)%float in
  let sxz := (xz * lx)%float in
  let syx := (yx * ly)%float in
  let syy := (yy * ly)%float in
  let syz := (yz * ly)%float in
  let szx := (zx * lz)%float in
  let szy := (zy * lz)%float in
  let szz := (zz * lz)%float in
  let t := (sxx + syy + szz)%float in
  let rotation' :=
    if (0 <=? t)%float then
      let s := sqrt (t + 1)%float in
      let w := (0.5 * s)%float in
      let sd := (0.5 / s)%float in
      let x := ((szy - syz) * sd)%float in
      let y := ((sxz - szx) * sd)%float in
      let z := ((syx - sxy) * sd)%float in
      Quaternion.set rotation x y z w
    else if (syy <? sxx)%float && (szz <? sxx)%float then
      let s := sqrt (1 + sxx - syy - szz)%float in
      let x := (s * 0.5)%float in
      let sd := (0.5 / s)%float in
      let y := ((syx + sxy) * sd)%float in
      let z := ((sxz + szx) * sd)%float in
      let w := ((szy - syz) * sd)%float in
      Quaternion.set rotation x y z w
    else if (szz <? syy)%float then
      let s := sqrt (1 + syy - sxx - szz)%float in
      let y := (s * 0.5)%float in
      let sd := (0.5 / s)%float in
      let x := ((syx + sxy) * sd)%float in
      let z := ((szy + syz) * sd)%float in
      let w := ((sxz - szx) * sd)%float in
      Quaternion.set rotation x y z w
    else
      let s := sqrt (1 + szz - sxx - syy)%float in
      let z := (s * 0.5)%float in
      let sd := (0.5 / s)%float in
      let x := ((sxz + szx) * sd)%float in
      let y := ((szy + syz) * sd)%float in
      let w := ((syx - sxy) * sd)%float in
      Quaternion.set rotation x y z w in
  let scale' := Vector3.set scale sx sy sz in
  let position' := Vector3.set position val.[12] val.[13] val.[14] in
  mret (position', rotation', scale').

Definition scale (this : loc) (scale : float) (optresult : option loc)
    : js loc :=
  let result := default this optresult in
  let m := result in
  v ← load m 0; store m 0 (v * scale)%float;;
  v ← load m 1; store m 1 (v * scale)%float;;
  v ← load m 2; store m 2 (v * scale)%float;;
  v ← load m 3; store m 3 (v * scale)%float;;
  v ← load m 4; store m 4 (v * scale)%float;;
  v ← load m 5; store m 5 (v * scale)%float;;
  v ← load m 6; store m 6 (v * scale)%float;;
  v ← load m 7; store m 7 (v * scale)%float;;
  v ← load m 8; store m 8 (v * scale)%float;;
  v ← load m 9; store m 9 (v * scale)%float;;
  v ← load m 10; store m 10 (v * scale)%float;;
  v ← load m 11; store m 11 (v * scale)%float;;
  v ← load m 12; store m 12 (v * scale)%float;;
  v ← load m 13; store m 13 (v * scale)%float;;
  v ← load m 14; store m 14 (v * scale)%float;;
  v ← load m 15; store m 15 (v * scale)%float;;
  mret result.

(** [Matrix4.multiply(a, b, result)], the static primitive: the 32 operand
    entries are copied into local constants before the first write. *)
Definition static_multiply (a b result : loc) : js loc :=
  av ← deref a;
  bv ← deref b;
  let r := result in
  let a11 := av.[0] in let a12 := av.[4] in
  let a13 := av.[8] in let a14 := av.[12] in
  let a21 := av.[1] in let a22 := av.[5] in
  let a23 := av.[9] in let a24 := av.[13] in
  let a31 := av.[2] in let a32 := av.[6] in
  let a33 := av.[10] in let a34 := av.[14] in
  let a41 := av.[3] in let a42 := av.[7] in
  let a43 := av.[11] in let a44 := av.[15] in
  let b11 := bv.[0] in let b12 := bv.[4] in
  let b13 := bv.[8] in let b14 := bv.[12] in
  let b21 := bv.[1] in let b22 := bv.[5] in
  let b23 := bv.[9] in let b24 := bv.[13] in
  let b31 := bv.[2] in let b32 := bv.[6] in
  let b33 := bv.[10] in let b34 := bv.[14] in
  let b41 := bv.[3] in let b42 := bv.[7] in
  let b43 := bv.[11] in let b44 := bv.[15] in
  store r 0 (a11 * b11 + a12 * b21 + a13 * b31 + a14 * b41)%float;;
  store r 4 (a11 * b12 + a12 * b22 + a13 * b32 + a14 * b42)%float;;
  store r 8 (a11 * b13 + a12 * b23 + a13 * b33 + a14 * b43)%float;;
  store r 12 (a11 * b14 + a12 * b24 + a13 * b34 + a14 * b44)%float;;
  store r 1 (a21 * b11 + a22 * b21 + a23 * b31 + a24 * b41)%float;;
  store r 5 (a21 * b12 + a22 * b22 + a23 * b32 + a24 * b42)%float;;
  store r 9 (a21 * b13 + a22 * b23 + a23 * b33 + a24 * b43)%float;;
  store r 13 (a21 * b14 + a22 * b24 + a23 * b34 + a24 * b44)%float;;
  store r 2 (a31 * b11 + a32 * b21 + a33 * b31 + a34 * b41)%float;;
  store r 6 (a31 * b12 + a32 * b22 + a33 * b32 + a34 * b42)%float;;
  store r 10 (a31 * b13 + a32 * b23 + a33 * b33 + a34 * b43)%float;;
  store r 14 (a31 * b14 + a32 * b24 + a33 * b34 + a34 * b44)%float;;
  store r 3 (a41 * b11 + a42 * b21 + a43 * b31 + a44 * b41)%float;;
  store r 7 (a41 * b12 + a42 * b22 + a43 * b32 + a44 * b42)%float;;
  store r 11 (a41 * b13 + a42 * b23 + a43 * b33 + a44 * b43)%float;;
  store r 15 (a41 * b14 + a42 * b24 + a43 * b34 + a44 * b44)%float;;
  mret result.

Definition multiply (this matrix : loc) (optresult : option loc) : js loc :=
  let result := default this optresult in
  static_multiply this matrix result.

Definition preMultiply (this matrix : loc) (optresult : option loc)
    : js loc :=
  let result := default this optresult in
  static_multiply matrix this result.

Definition fromArray (this values : loc) : js loc :=
  n ← length_of values;
  if (n <? 16)%nat then throw InvalidArgument
  else
    let m := this in
    v ← load values 0; store m 0 v;;
    v ← load values 1; store m 1 v;;
    v ← load values 2; store m 2 v;;
    v ← load values 3; store m 3 v;;
    v ← load values 4; store m 4 v;;
    v ← load values 5; store m 5 v;;
    v ← load values 6; store m 6 v;;
    v ← load values 7; store m 7 v;;
    v ← load values 8; store m 8 v;;
    v ← load values 9; store m 9 v;;
    v ← load values 10; store m 10 v;;
    v ← load values 11; store m 11 v;;
    v ← load values 12; store m 12 v;;
    v ← load values 13; store m 13 v;;
    v ← load values 14; store m 14 v;;
    v ← load values 15; store m 15 v;;
    mret this.

(** [matrix._val] is [matrix] itself. *)
Definition copy (this matrix : loc) : js loc := fromArray this matrix.

Definition clone (this : loc) : js loc :=
  created ← constructor; fromArray created this.

Definition identity (this : loc) : js loc :=
  set this 1 0 0 0
           0 1 0 0
           0 0 1 0
           0 0 0 1;;
  mret this.

(** The getter [determinant]. *)
Definition determinant (this : loc) : js float :=
  m ← deref this;
  mret (m.[3] * m.[6] * m.[9] * m.[12] - m.[2] * m.[7] * m.[9] * m.[12]
        - m.[3] * m.[5] * m.[10] * m.[12] + m.[1] * m.[7] * m.[10] * m.[12]
        + m.[2] * m.[5] * m.[11] * m.[12] - m.[1] * m.[6] * m.[11] * m.[12]
        - m.[3] * m.[6] * m.[8] * m.[13] + m.[2] * m.[7] * m.[8] * m.[13]
        + m.[3] * m.[4] * m.[10] * m.[13] - m.[0] * m.[7] * m.[10] * m.[13]
        - m.[2] * m.[4] * m.[11] * m.[13] + m.[0] * m.[6] * m.[11] * m.[13]
        + m.[3] * m.[5] * m.[8] * m.[14] - m.[1] * m.[7] * m.[8] * m.[14]
        - m.[3] * m.[4] * m.[9] * m.[14] + m.[0] * m.[7] * m.[9] * m.[14]
        + m.[1] * m.[4] * m.[11] * m.[14] - m.[0] * m.[5] * m.[11] * m.[14]
        - m.[2] * m.[5] * m.[8] * m.[15] + m.[1] * m.[6] * m.[8] * m.[15]
        + m.[2] * m.[4] * m.[9] * m.[15] - m.[0] * m.[6] * m.[9] * m.[15]
        - m.[1] * m.[4] * m.[10] * m.[15] + m.[0] * m.[5] * m.[10] * m.[15]
       )%float.

(** The sixteen cofactors are local constants computed from [this._val]
    before the first write to [result._val]. *)
Definition invert (this : loc) (optresult : option loc) : js loc :=
  det ← determinant this;
  if (det =? 0)%float then throw SingularMatrix
  else
    let result := default this optresult in
    m ← deref this;
    let r := result in
    let m00 := (m.[9] * m.[14] * m.[7] - m.[13] * m.[10] * m.[7] + m.[13] * m.[6] * m.[11] - m.[5] * m.[14] * m.[11] - m.[9] * m.[6] * m.[15] + m.[5] * m.[10] * m.[15])%float in
    let m01 := (m.[12] * m.[10] * m.[7] - m.[8] * m.[14] * m.[7] - m.[12] * m.[6] * m.[11] + m.[4] * m.[14] * m.[11] + m.[8] * m.[6] * m.[15] - m.[4] * m.[10] * m.[15])%float in
    let m02 := (m.[8] * m.[13] * m.[7] - m.[12] * m.[9] * m.[7] + m.[12] * m.[5] * m.[11] - m.[4] * m.[13] * m.[11] - m.[8] * m.[5] * m.[15] + m.[4] * m.[9] * m.[15])%float in
    let m03 := (m.[12] * m.[9] * m.[6] - m.[8] * m.[13] * m.[6] - m.[12] * m.[5] * m.[10] + m.[4] * m.[13] * m.[10] + m.[8] * m.[5] * m.[14] - m.[4] * m.[9] * m.[14])%float in
    let m10 := (m.[13] * m.[10] * m.[3] - m.[9] * m.[14] * m.[3] - m.[13] * m.[2] * m.[11] + m.[1] * m.[14] * m.[11] + m.[9] * m.[2] * m.[15] - m.[1] * m.[10] * m.[15])%float in
    let m11 := (m.[8] * m.[14] * m.[3] - m.[12] * m.[10] * m.[3] + m.[12] * m.[2] * m.[11] - m.[0] * m.[14] * m.[11] - m.[8] * m.[2] * m.[15] + m.[0] * m.[10] * m.[15])%float in
    let m12 := (m.[12] * m.[9] * m.[3] - m.[8] * m.[13] * m.[3] - m.[12] * m.[1] * m.[11] + m.[0] * m.[13] * m.[11] + m.[8] * m.[1] * m.[15] - m.[0] * m.[9] * m.[15])%float in
    let m13 := (m.[8] * m.[13] * m.[2] - m.[12] * m.[9] * m.[2] + m.[12] * m.[1] * m.[10] - m.[0] * m.[13] * m.[10] - m.[8] * m.[1] * m.[14] + m.[0] * m.[9] * m.[14])%float in
    let m20 := (m.[5] * m.[14] * m.[3] - m.[13] * m.[6] * m.[3] + m.[13] * m.[2] * m.[7] - m.[1] * m.[14] * m.[7] - m.[5] * m.[2] * m.[15] + m.[1] * m.[6] * m.[15])%float in
    let m21 := (m.[12] * m.[6] * m.[3] - m.[4] * m.[14] * m.[3] - m.[12] * m.[2] * m.[7] + m.[0] * m.[14] * m.[7] + m.[4] * m.[2] * m.[15] - m.[0] * m.[6] * m.[15])%float in
    let m22 := (m.[4] * m.[13] * m.[3] - m.[12] * m.[5] * m.[3] + m.[12] * m.[1] * m.[7] - m.[0] * m.[13] * m.[7] - m.[4] * m.[1] * m.[15] + m.[0] * m.[5] * m.[15])%float in
    let m23 := (m.[12] * m.[5] * m.[2] - m.[4] * m.[13] * m.[2] - m.[12] * m.[1] * m.[6] + m.[0] * m.[13] * m.[6] + m.[4] * m.[1] * m.[14] - m.[0] * m.[5] * m.[14])%float in
    let m30 := (m.[9] * m.[6] * m.[3] - m.[5] * m.[10] * m.[3] - m.[9] * m.[2] * m.[7] + m.[1] * m.[10] * m.[7] + m.[5] * m.[2] * m.[11] - m.[1] * m.[6] * m.[11])%float in
    let m31 := (m.[4] * m.[10] * m.[3] - m.[8] * m.[6] * m.[3] + m.[8] * m.[2] * m.[7] - m.[0] * m.[10] * m.[7] - m.[4] * m.[2] * m.[11] + m.[0] * m.[6] * m.[11])%float in
    let m32 := (m.[8] * m.[5] * m.[3] - m.[4] * m.[9] * m.[3] - m.[8] * m.[1] * m.[7] + m.[0] * m.[9] * m.[7] + m.[4] * m.[1] * m.[11] - m.[0] * m.[5] * m.[11])%float in
    let m33 := (m.[4] * m.[9] * m.[2] - m.[8] * m.[5] * m.[2] + m.[8] * m.[1] * m.[6] - m.[0] * m.[9] * m.[6] - m.[4] * m.[1] * m.[10] + m.[0] * m.[5] * m.[10])%float in
    let idet := (1 / det)%float in
    store r 0 (m00 * idet)%float;;
    store r 1 (m10 * idet)%float;;
    store r 2 (m20 * idet)%float;;
    store r 3 (m30 * idet)%float;;
    store r 4 (m01 * idet)%float;;
    store r 5 (m11 * idet)%float;;
    store r 6 (m21 * idet)%float;;
    store r 7 (m31 * idet)%float;;
    store r 8 (m02 * idet)%float;;
    store r 9 (m12 * idet)%float;;
    store r 10 (m22 * idet)%float;;
    store r 11 (m32 * idet)%float;;
    store r 12 (m03 * idet)%float;;
    store r 13 (m13 * idet)%float;;
    store r 14 (m23 * idet)%float;;
    store r 15 (m33 * idet)%float;;
    mret this.

(** [composePos], [composeRot] and [composePosRot]: the builders without a
    scale. *)
Definition composePos (this : loc) (position : Vector3.t) : js loc :=
  let m := this in
  store m 0 1%float;;
  store m 4 0%float;;
  store m 8 0%float;;
  store m 12 (Vector3.x position);;
  store m 1 0%float;;
  store m 5 1%float;;
  store m 9 0%float;;
  store m 13 (Vector3.y position);;
  store m 2 0%float;;
  store m 6 0%float;;
  store m 10 1%float;;
  store m 14 (Vector3.z position);;
  store m 3 0%float;;
  store m 7 0%float;;
  store m 11 0%float;;
  store m 15 1%float;;
  mret this.

Definition composePosRot (this : loc) (position : Vector3.t)
    (rotation : Quaternion.t) : js loc :=
  let xs := (Quaternion.x rotation * 2)%float in
  let ys := (Quaternion.y rotation * 2)%float in
  let zs := (Quaternion.z rotation * 2)%float in
  let wx := (Quaternion.w rotation * xs)%float in
  let wy := (Quaternion.w rotation * ys)%float in
  let wz := (Quaternion.w rotation * zs)%float in
  let xx := (Quaternion.x rotation * xs)%float in
  let xy := (Quaternion.x rotation * ys)%float in
  let xz := (Quaternion.x rotation * zs)%float in
  let yy := (Quaternion.y rotation * ys)%float in
  let yz := (Quaternion.y rotation * zs)%float in
  let zz := (Quaternion.z rotation * zs)%float in
  let m := this in
  store m 0 (1 - (yy + zz))%float;;
  store m 4 (xy - wz)%float;;
  store m 8 (xz + wy)%float;;
  store m 12 (Vector3.x position);;
  store m 1 (xy + wz)%float;;
  store m 5 (1 - (xx + zz))%float;;
  store m 9 (yz - wx)%float;;
  store m 13 (Vector3.y position);;
  store m 2 (xz - wy)%float;;
  store m 6 (yz + wx)%float;;
  store m 10 (1 - (xx + yy))%float;;
  store m 14 (Vector3.z position);;
  store m 3 0%float;;
  store m 7 0%float;;
  store m 11 0%float;;
  store m 15 1%float;;
  mret this.

Definition composeRot (this : loc) (rotation : Quaternion.t) : js loc :=
  composePosRot this Vector3.ZERO rotation.

(** Six entries above the diagonal are saved in local constants; the twelve
    writes that follow read the array as the earlier writes left it. *)
Definition transpose (this : loc) : js loc :=
  let m := this in
  m01 ← load m 4;
  m02 ← load m 8;
  m03 ← load m 12;
  m12 ← load m 9;
  m13 ← load m 13;
  m23 ← load m 14;
  v ← load m 1; store m 4 v;;
  v ← load m 2; store m 8 v;;
  v ← load m 3; store m 12 v;;
  store m 1 m01;;
  v ← load m 6; store m 9 v;;
  v ← load m 7; store m 13 v;;
  store m 2 m02;;
  store m 6 m12;;
  v ← load m 11; store m 14 v;;
  store m 3 m03;;
  store m 7 m13;;
  store m 11 m23;;
  mret this.

Definition resetPos (this : loc) : js loc :=
  let m := this in
  store m 12 0%float;;
  store m 13 0%float;;
  store m 14 0%float;;
  mret this.

(** The getter [values]: the array itself, not a copy. *)
Definition values (this : loc) : js loc := mret this.

End Matrix4.

(** ** The texture of [src/renderer/shader/texture.ts]

    The WebGL2 context is outside the program: a method is modelled by the
    calls it makes on the context, in order, and by what it leaves in the
    fields of the [Texture]. What the context answers ([gl.createTexture()]
    returns a texture or null) and what the renderer singleton holds
    ([Renderer.instance.valid]) are inputs of the method. *)

Module Texture.

(** The [GLenum] constants the class names. *)
Inductive gl_enum : Type :=
  | TEXTURE_2D | RGBA | UNSIGNED_BYTE
  | TEXTURE_WRAP_S | TEXTURE_WRAP_T | TEXTURE_MIN_FILTER
  | CLAMP_TO_EDGE | LINEAR.

(** A [WebGLTexture] and a [WebGLUniformLocation] are opaque handles. *)
Abbreviation WebGLTexture := positive.
Abbreviation WebGLUniformLocation := positive.

Inductive gl_call : Type :=
  | createTexture
  | bindTexture (target : gl_enum) (texture : option WebGLTexture)
  | texImage2D_of_image (target : gl_enum) (level : float)
                        (internalformat format type : gl_enum)
  | generateMipmap (target : gl_enum)
  | texParameteri (target pname param : gl_enum)
  | uniform1i (location : WebGLUniformLocation) (unit : float)
  | activeTexture_TEXTURE0_plus (unit : float)
  | deleteTexture (texture : WebGLTexture).

(** The fields of a [Texture] that its methods read or write after
    construction. The image element [_image] is never reassigned: the one
    [texImage2D] call of the class uploads it, and is written
    [texImage2D_of_image]. *)
Record t : Type := mk {
  _url : string;
  _texture : option WebGLTexture;
  _crossOrigin : string
}.

Inductive error : Type := Error (message : string).

(** The outcome of a method: the fields afterwards and the calls made on
    the context, the earliest first; a throw keeps both as they are at the
    throw. *)
Inductive outcome : Type :=
  | Returned (this : t) (calls : list gl_call)
  | Thrown (e : error) (this : t) (calls : list gl_call).

Definition constructor (url : string) : t :=
  {| _url := url; _texture := None; _crossOrigin := "anonymous" |}.

Definition get_crossOrigin (this : t) : string := _crossOrigin this.

Definition set_crossOrigin (this : t) (newOrigin : string) : t :=
  {| _url := _url this; _texture := _texture this; _crossOrigin := newOrigin |}.

(** [created] is what [gl.createTexture()] returns: [None] for null. *)
Definition _executeOnce (created : option WebGLTexture) (this : t) : outcome :=
  match created with
  | None =>
      Thrown (Error "Texture.executeOnce(gl) - failed gl.createTexture()")
             this [createTexture]
  | Some texture =>
      Returned
        {| _url := _url this; _texture := Some texture;
           _crossOrigin := _crossOrigin this |}
        [createTexture;
         bindTexture TEXTURE_2D (Some texture);
         texImage2D_of_image TEXTURE_2D 0 RGBA RGBA UNSIGNED_BYTE;
         generateMipmap TEXTURE_2D;
         texParameteri TEXTURE_2D TEXTURE_WRAP_S CLAMP_TO_EDGE;
         texParameteri TEXTURE_2D TEXTURE_WRAP_T CLAMP_TO_EDGE;
         texParameteri TEXTURE_2D TEXTURE_MIN_FILTER LINEAR;
         bindTexture TEXTURE_2D None]
  end.

(** [bind(gl, uniform, unit = 0)]; [location] is [uniform.location]. *)
Definition bind (this : t) (location : WebGLUniformLocation)
    (optunit : option float) : outcome :=
  let unit := default 0%float optunit in
  match _texture this with
  | None => Returned this []
  | Some texture =>
      Returned this
        [uniform1i location unit;
         activeTexture_TEXTURE0_plus unit;
         bindTexture TEXTURE_2D (Some texture)]
  end.

(** [valid] is [Renderer.instance.valid]. *)
Definition destroy (valid : bool) (this : t) : outcome :=
  if negb valid then
    Thrown (Error "Texture.destroy() - unable to delete texture as Renderer instance is not valid")
           this []
  else
    Returned
      {| _url := _url this; _texture := None; _crossOrigin := _crossOrigin this |}
      match _texture this with
      | Some texture => [deleteTexture texture]
      | None => []
      end.

End Texture.

(** ** Running method bodies *)

Section Run.
Context {A : Type}.
Implicit Types (σ : heap) (a c : loc) (l : list float) (i : nat).

Lemma run_bind_ok {B} (m : js B) (f : B → js A) σ x σ' :
  m σ = Ok x σ' → (m ≫= f) σ = f x σ'.
Proof. unfold mbind, js_bind. by intros ->. Qed.

Lemma run_bind_throw {B} (m : js B) (f : B → js A) σ e σ' :
  m σ = Throw e σ' → (m ≫= f) σ = Throw e σ'.
Proof. unfold mbind, js_bind. by intros ->. Qed.

Lemma run_deref (f : list float → js A) σ a l :
  σ !! a = Some l → (deref a ≫= f) σ = f l σ.
Proof.
  intros H. unfold mbind, js_bind, deref.
  by rewrite (lookup_total_correct _ _ _ H).
Qed.

Lemma run_length_of (f : nat → js A) σ a l :
  σ !! a = Some l → (length_of a ≫= f) σ = f (length l) σ.
Proof.
  intros H. unfold mbind, js_bind, length_of.
  by rewrite (lookup_total_correct _ _ _ H).
Qed.

Lemma run_load (f : float → js A) σ a l i :
  σ !! a = Some l → (load a i ≫= f) σ = f l.[i] σ.
Proof.
  intros H. unfold mbind, js_bind, load.
  by rewrite (lookup_total_correct _ _ _ H).
Qed.

Lemma run_store (f : unit → js A) σ a l i v :
  σ !! a = Some l → (store a i v ≫= f) σ = f () (<[a := <[i := v]> l]> σ).
Proof.
  intros H. unfold mbind, js_bind, store.
  by rewrite (lookup_total_correct _ _ _ H).
Qed.

(** Once the array at [a] has been written, the heap has the shape
    [<[a := l]> σ]; the next steps keep it. *)
Lemma run_load_here (f : float → js A) σ a l i :
  (load a i ≫= f) (<[a := l]> σ) = f l.[i] (<[a := l]> σ).
Proof. apply run_load, lookup_insert_eq. Qed.

Lemma run_load_other (f : float → js A) σ a c l l' i :
  a ≠ c → σ !! c = Some l' →
  (load c i ≫= f) (<[a := l]> σ) = f l'.[i] (<[a := l]> σ).
Proof. intros Hne H. apply run_load. by rewrite lookup_insert_ne. Qed.

Lemma run_store_here (f : unit → js A) σ a l i v :
  (store a i v ≫= f) (<[a := l]> σ) = f () (<[a := <[i := v]> l]> σ).
Proof.
  rewrite (run_store _ _ a l) by apply lookup_insert_eq.
  by rewrite insert_insert_eq.
Qed.
End Run.

(** An array of sixteen entries, entry by entry. *)
Ltac sixteen b H :=
  do 16 (destruct b as [|? b]; [discriminate H|]);
  destruct b; [clear H|discriminate H].

(** Runs a straight-line body that reads and writes one array. *)
Ltac run_here :=
  repeat first [rewrite run_store_here | rewrite run_load_here].

(** ** scale *)

Lemma scale_run σ this f optresult b :
  σ !! default this optresult = Some b → length b = 16 →
  Matrix4.scale this f optresult σ
  = Ok (default this optresult)
       (<[default this optresult := (λ x, x * f)%float <$> b]> σ).
Proof.
  intros Hb Hlen. sixteen b Hlen.
  unfold Matrix4.scale. cbv zeta.
  rewrite (run_load _ _ _ _ _ Hb), (run_store _ _ _ _ _ _ Hb).
  cbn [lookup_total list_lookup_total insert list_insert].
  do 15 (rewrite run_load_here, run_store_here;
         cbn [lookup_total list_lookup_total insert list_insert]).
  reflexivity.
Qed.

(** ** set, deserialise, serialise *)

Lemma set_run σ this b
    (m00 m01 m02 m03 m10 m11 m12 m13 m20 m21 m22 m23 m30 m31 m32 m33 : float) :
  σ !! this = Some b → length b = 16 →
  Matrix4.set this m00 m01 m02 m03 m10 m11 m12 m13
                   m20 m21 m22 m23 m30 m31 m32 m33 σ
  = Ok this (<[this := [m00; m10; m20; m30; m01; m11; m21; m31;
                        m02; m12; m22; m32; m03; m13; m23; m33]]> σ).
Proof.
  intros Hb Hlen. sixteen b Hlen.
  unfold Matrix4.set. cbv zeta.
  rewrite (run_store _ _ _ _ _ _ Hb).
  run_here. reflexivity.
Qed.

Lemma constructor_run σ :
  Matrix4.constructor σ
  = Ok (fresh (dom σ))
       (<[fresh (dom σ) := [1; 0; 0; 0; 0; 1; 0; 0; 0; 0; 1; 0; 0; 0; 0; 1]%float]> σ).
Proof. reflexivity. Qed.

Lemma fresh_loc_unused (σ : heap) : σ !! fresh (dom σ) = None.
Proof. apply not_elem_of_dom, is_fresh. Qed.

Lemma fresh_loc_ne (σ : heap) a l : σ !! a = Some l → fresh (dom σ) ≠ a.
Proof. intros H E. rewrite <- E, fresh_loc_unused in H. discriminate H. Qed.

(** The field [m{row}{col}] of the serialised record. *)
Definition field (j : Matrix4.Matrix4Json) (row col : nat) : float :=
  match row, col with
  | 0, 0 => Matrix4.m00 j | 0, 1 => Matrix4.m01 j
  | 0, 2 => Matrix4.m02 j | 0, 3 => Matrix4.m03 j
  | 1, 0 => Matrix4.m10 j | 1, 1 => Matrix4.m11 j
  | 1, 2 => Matrix4.m12 j | 1, 3 => Matrix4.m13 j
  | 2, 0 => Matrix4.m20 j | 2, 1 => Matrix4.m21 j
  | 2, 2 => Matrix4.m22 j | 2, 3 => Matrix4.m23 j
  | 3, 0 => Matrix4.m30 j | 3, 1 => Matrix4.m31 j
  | 3, 2 => Matrix4.m32 j | 3, 3 => Matrix4.m33 j
  | _, _ => nan
  end.

Lemma serialise_run σ this :
  ∃ j, Matrix4.serialise this σ = Ok j σ ∧
       ∀ row col, row < 4 → col < 4 →
         field j row col = (σ !!! this).[4 * col + row].
Proof.
  eexists. split; [reflexivity|].
  intros row col Hr Hc.
  do 4 (destruct row as [|row]; [do 4 (destruct col as [|col]; [reflexivity|]); lia|]).
  lia.
Qed.

Lemma deserialise_run σ this b j :
  σ !! this = Some b → length b = 16 →
  ∃ b', Matrix4.deserialise this j σ = Ok this (<[this := b']> σ) ∧
        length b' = 16 ∧
        ∀ row col, row < 4 → col < 4 → b'.[4 * col + row] = field j row col.
Proof.
  intros Hb Hlen. eexists. split; [|split].
  - unfold Matrix4.deserialise. by apply set_run with b.
  - reflexivity.
  - intros row col Hr Hc.
    do 4 (destruct row as [|row]; [do 4 (destruct col as [|col]; [reflexivity|]); lia|]).
    lia.
Qed.

(** C2. For every matrix M (an instance with its sixteen entries),
    [Matrix4.deserialise(M.serialise())] returns a new instance whose buffer is
    M's buffer, entry for entry, and leaves M as it was. The record in between
    holds entry [4*col+row] in field [m{row}{col}]. *)
Theorem deserialise_serialise_roundtrip σ M b :
  σ !! M = Some b → length b = 16 →
  ∃ j N σ',
    Matrix4.serialise M σ = Ok j σ ∧
    (∀ row col, row < 4 → col < 4 → field j row col = b.[4 * col + row]) ∧
    (Matrix4.serialise M ≫= Matrix4.static_deserialise) σ = Ok N σ' ∧
    N ≠ M ∧ σ' !! N = Some b ∧ σ' !! M = Some b.
Proof.
  intros Hb Hlen.
  destruct (serialise_run σ M) as (j & Hj & Hfield).
  exists j, (fresh (dom σ)), (<[fresh (dom σ) := b]> σ).
  pose proof (fresh_loc_ne σ M b Hb) as Hne.
  split; [exact Hj|]. split.
  { intros row col Hr Hc. rewrite Hfield by done.
    by rewrite (lookup_total_correct _ _ _ Hb). }
  split; [|split; [exact Hne|split]].
  - rewrite (run_bind_ok _ _ _ _ _ Hj).
    unfold Matrix4.static_deserialise.
    rewrite (run_bind_ok _ _ _ _ _ (constructor_run σ)).
    unfold Matrix4.deserialise.
    erewrite set_run; [|apply lookup_insert_eq|reflexivity].
    rewrite insert_insert_eq.
    revert Hj. unfold Matrix4.serialise.
    rewrite (run_deref _ _ _ _ Hb). intros [= <-].
    sixteen b Hlen. reflexivity.
  - apply lookup_insert_eq.
  - by rewrite lookup_insert_ne.
Qed.

Lemma deserialise_serialise_roundtrip_witness :
  ∃ j N σ',
    Matrix4.serialise 1%positive
      {[ 1%positive := [1; 2; 3; 4; 5; 6; 7; 8; 9; 10; 11; 12; 13; 14; 15; 16]%float ]}
    = Ok j {[ 1%positive := [1; 2; 3; 4; 5; 6; 7; 8; 9; 10; 11; 12; 13; 14; 15; 16]%float ]} ∧
    (∀ row col, row < 4 → col < 4 →
       field j row col
       = [1; 2; 3; 4; 5; 6; 7; 8; 9; 10; 11; 12; 13; 14; 15; 16]%float.[4 * col + row]) ∧
    (Matrix4.serialise 1%positive ≫= Matrix4.static_deserialise)
      {[ 1%positive := [1; 2; 3; 4; 5; 6; 7; 8; 9; 10; 11; 12; 13; 14; 15; 16]%float ]}
    = Ok N σ' ∧
    N ≠ 1%positive ∧
    σ' !! N = Some [1; 2; 3; 4; 5; 6; 7; 8; 9; 10; 11; 12; 13; 14; 15; 16]%float ∧
    σ' !! 1%positive = Some [1; 2; 3; 4; 5; 6; 7; 8; 9; 10; 11; 12; 13; 14; 15; 16]%float.
Proof.
  apply (deserialise_serialise_roundtrip _ 1%positive); reflexivity.
Defined.

(** ** fromArray *)

(** C5. For every input array v, [fromArray(v)] throws the InvalidArgument
    error when v has fewer than 16 elements, and the heap (the receiver
    included) is then as before; when v has 16 or more elements the call
    returns the receiver, whose entry i is now v[i] for i in 0..15. The
    array may be the receiver's own. *)
Theorem fromArray_copies_or_rejects σ this values b v :
  σ !! this = Some b → length b = 16 → σ !! values = Some v →
  Matrix4.fromArray this values σ
  = if (length v <? 16)%nat then Throw Matrix4.InvalidArgument σ
    else Ok this (<[this := take 16 v]> σ).
Proof.
  intros Hb Hlen Hv. unfold Matrix4.fromArray.
  rewrite (run_length_of _ _ _ _ Hv).
  destruct (length v <? 16)%nat eqn:Hshort; [reflexivity|].
  apply Nat.ltb_ge in Hshort. cbv zeta.
  destruct (decide (this = values)) as [->|Hne].
  - assert (b = v) as -> by congruence.
    sixteen v Hlen.
    rewrite (run_load _ _ _ _ _ Hv), (run_store _ _ _ _ _ _ Hv).
    run_here. reflexivity.
  - sixteen b Hlen.
    do 16 (destruct v as [|? v]; [simpl in Hshort; lia|]).
    rewrite (run_load _ _ _ _ _ Hv), (run_store _ _ _ _ _ _ Hb).
    repeat first [rewrite run_store_here
                 | rewrite (run_load_other _ _ _ _ _ _ _ Hne Hv)].
    reflexivity.
Qed.

Lemma fromArray_copies_or_rejects_witness :
  Matrix4.fromArray 1%positive 2%positive
    {[ 1%positive := [1; 0; 0; 0; 0; 1; 0; 0; 0; 0; 1; 0; 0; 0; 0; 1]%float;
       2%positive := [1; 2; 3]%float ]}
  = Throw Matrix4.InvalidArgument
      {[ 1%positive := [1; 0; 0; 0; 0; 1; 0; 0; 0; 0; 1; 0; 0; 0; 0; 1]%float;
         2%positive := [1; 2; 3]%float ]}
  ∧
  Matrix4.fromArray 1%positive 2%positive
    {[ 1%positive := [1; 0; 0; 0; 0; 1; 0; 0; 0; 0; 1; 0; 0; 0; 0; 1]%float;
       2%positive := [1; 2; 3; 4; 5; 6; 7; 8; 9; 10; 11; 12; 13; 14; 15; 16; 17]%float ]}
  = Ok 1%positive
      (<[ 1%positive := [1; 2; 3; 4; 5; 6; 7; 8; 9; 10; 11; 12; 13; 14; 15; 16]%float ]>
       {[ 1%positive := [1; 0; 0; 0; 0; 1; 0; 0; 0; 0; 1; 0; 0; 0; 0; 1]%float;
          2%positive := [1; 2; 3; 4; 5; 6; 7; 8; 9; 10; 11; 12; 13; 14; 15; 16; 17]%float ]}).
Proof.
  split.
  - apply (fromArray_copies_or_rejects _ 1%positive 2%positive
             [1; 0; 0; 0; 0; 1; 0; 0; 0; 0; 1; 0; 0; 0; 0; 1]%float
             [1; 2; 3]%float); reflexivity.
  - apply (fromArray_copies_or_rejects _ 1%positive 2%positive
             [1; 0; 0; 0; 0; 1; 0; 0; 0; 0; 1; 0; 0; 0; 0; 1]%float
             [1; 2; 3; 4; 5; 6; 7; 8; 9; 10; 11; 12; 13; 14; 15; 16; 17]%float);
      reflexivity.
Defined.

Lemma clone_run σ this b :
  σ !! this = Some b → length b = 16 →
  Matrix4.clone this σ = Ok (fresh (dom σ)) (<[fresh (dom σ) := b]> σ).
Proof.
  intros Hb Hlen. unfold Matrix4.clone.
  rewrite (run_bind_ok _ _ _ _ _ (constructor_run σ)).
  erewrite fromArray_copies_or_rejects;
    [|apply lookup_insert_eq|reflexivity
     |rewrite lookup_insert_ne; [exact Hb|by eapply fresh_loc_ne]].
  rewrite Hlen. simpl. rewrite insert_insert_eq.
  sixteen b Hlen. reflexivity.
Qed.

(** ** multiply *)

(** Entry [4*col+row] of a product: row [row] of [a] against column [col] of
    [b], summed from left to right. *)
Definition dot (a b : list float) (row col : nat) : float :=
  (a.[row] * b.[4 * col] + a.[4 + row] * b.[4 * col + 1]
   + a.[8 + row] * b.[4 * col + 2] + a.[12 + row] * b.[4 * col + 3])%float.

Definition product (a b : list float) : list float :=
  [dot a b 0 0; dot a b 1 0; dot a b 2 0; dot a b 3 0;
   dot a b 0 1; dot a b 1 1; dot a b 2 1; dot a b 3 1;
   dot a b 0 2; dot a b 1 2; dot a b 2 2; dot a b 3 2;
   dot a b 0 3; dot a b 1 3; dot a b 2 3; dot a b 3 3].

(** Whatever the aliasing between the three instances, the result receives
    the product of the operands as they were before the call. *)
Lemma static_multiply_run σ a b result av bv rv :
  σ !! a = Some av → σ !! b = Some bv →
  σ !! result = Some rv → length rv = 16 →
  Matrix4.static_multiply a b result σ
  = Ok result (<[result := product av bv]> σ).
Proof.
  intros Ha Hb Hr Hlen. sixteen rv Hlen.
  unfold Matrix4.static_multiply.
  rewrite (run_deref _ _ _ _ Ha), (run_deref _ _ _ _ Hb). cbv zeta.
  rewrite (run_store _ _ _ _ _ _ Hr).
  run_here. reflexivity.
Qed.

(** C4. For every matrix M, [M.clone().multiply(M, M)] (the result is the
    argument itself) leaves in M the same sixteen values that
    [M.multiply(M, fresh)] leaves in a new result: the product of M's values
    before the call by themselves. *)
Theorem multiply_result_aliased_to_argument σ M b :
  σ !! M = Some b → length b = 16 →
  ∃ F σ1 σ2,
    (Matrix4.clone M ≫= λ c, Matrix4.multiply c M (Some M)) σ = Ok M σ1 ∧
    (Matrix4.constructor ≫= λ f, Matrix4.multiply M M (Some f)) σ = Ok F σ2 ∧
    σ1 !! M = Some (product b b) ∧
    σ2 !! F = Some (product b b).
Proof.
  intros Hb Hlen.
  pose proof (fresh_loc_ne σ M b Hb) as Hne.
  eexists _, _, _. split; [|split; [|split]].
  - rewrite (run_bind_ok _ _ _ _ _ (clone_run σ M b Hb Hlen)).
    unfold Matrix4.multiply. simpl default.
    apply (static_multiply_run _ _ _ _ b b b).
    + apply lookup_insert_eq.
    + by rewrite lookup_insert_ne.
    + by rewrite lookup_insert_ne.
    + exact Hlen.
  - rewrite (run_bind_ok _ _ _ _ _ (constructor_run σ)).
    unfold Matrix4.multiply. simpl default.
    eapply (static_multiply_run _ _ _ _ b b).
    + by rewrite lookup_insert_ne.
    + by rewrite lookup_insert_ne.
    + apply lookup_insert_eq.
    + reflexivity.
  - apply lookup_insert_eq.
  - apply lookup_insert_eq.
Qed.

Lemma multiply_result_aliased_to_argument_witness :
  ∃ F σ1 σ2,
    (Matrix4.clone 1%positive ≫= λ c, Matrix4.multiply c 1%positive (Some 1%positive))
      {[ 1%positive := [1; 2; 3; 4; 5; 6; 7; 8; 9; 10; 11; 12; 13; 14; 15; 16]%float ]}
    = Ok 1%positive σ1 ∧
    (Matrix4.constructor ≫= λ f, Matrix4.multiply 1%positive 1%positive (Some f))
      {[ 1%positive := [1; 2; 3; 4; 5; 6; 7; 8; 9; 10; 11; 12; 13; 14; 15; 16]%float ]}
    = Ok F σ2 ∧
    σ1 !! 1%positive
    = Some (product [1; 2; 3; 4; 5; 6; 7; 8; 9; 10; 11; 12; 13; 14; 15; 16]%float
                    [1; 2; 3; 4; 5; 6; 7; 8; 9; 10; 11; 12; 13; 14; 15; 16]%float) ∧
    σ2 !! F
    = Some (product [1; 2; 3; 4; 5; 6; 7; 8; 9; 10; 11; 12; 13; 14; 15; 16]%float
                    [1; 2; 3; 4; 5; 6; 7; 8; 9; 10; 11; 12; 13; 14; 15; 16]%float).
Proof.
  apply (multiply_result_aliased_to_argument _ 1%positive); reflexivity.
Defined.

(** ** invert *)

Lemma determinant_run σ this : ∃ d, Matrix4.determinant this σ = Ok d σ.
Proof. eexists. reflexivity. Qed.

Lemma run_store_any {A} (f : unit → js A) σ a i v :
  (store a i v ≫= f) σ = f () (<[a := <[i := v]> (σ !!! a)]> σ).
Proof. reflexivity. Qed.

Lemma run_deref_any {A} (f : list float → js A) σ a :
  (deref a ≫= f) σ = f (σ !!! a) σ.
Proof. reflexivity. Qed.

(** [invert] either throws before its first write or returns the receiver. *)
Lemma invert_run σ this optresult d :
  Matrix4.determinant this σ = Ok d σ →
  if (d =? 0)%float
  then Matrix4.invert this optresult σ = Throw Matrix4.SingularMatrix σ
  else ∃ σ', Matrix4.invert this optresult σ = Ok this σ'.
Proof.
  intros Hd. unfold Matrix4.invert.
  rewrite (run_bind_ok _ _ _ _ _ Hd).
  destruct (d =? 0)%float; [reflexivity|].
  cbv zeta. rewrite run_deref_any, run_store_any.
  run_here. eexists. reflexivity.
Qed.

(** C10. When [invert] throws, the heap is the one the call started with: no
    entry of the receiver, of a supplied result or of any other array has
    been written. The error is then the SingularMatrix one. *)
Theorem invert_throw_leaves_heap σ this optresult e σ' :
  Matrix4.invert this optresult σ = Throw e σ' →
  σ' = σ ∧ e = Matrix4.SingularMatrix.
Proof.
  intros Hthrow.
  destruct (determinant_run σ this) as [d Hd].
  pose proof (invert_run σ this optresult d Hd) as Hrun.
  destruct (d =? 0)%float.
  - rewrite Hrun in Hthrow. by injection Hthrow as <- <-.
  - destruct Hrun as [σ'' Hrun]. rewrite Hrun in Hthrow. discriminate Hthrow.
Qed.

Lemma invert_throw_leaves_heap_witness :
  ∃ e σ',
    Matrix4.invert 1%positive (Some 2%positive)
      {[ 1%positive := [1; 0; 0; 0; 0; 1; 0; 0; 0; 0; 0; 0; 0; 0; 0; 1]%float;
         2%positive := [1; 0; 0; 0; 0; 1; 0; 0; 0; 0; 1; 0; 0; 0; 0; 1]%float ]}
    = Throw e σ' ∧
    σ' = {[ 1%positive := [1; 0; 0; 0; 0; 1; 0; 0; 0; 0; 0; 0; 0; 0; 0; 1]%float;
            2%positive := [1; 0; 0; 0; 0; 1; 0; 0; 0; 0; 1; 0; 0; 0; 0; 1]%float ]} ∧
    e = Matrix4.SingularMatrix.
Proof.
  eexists _, _. split; [reflexivity|].
  apply (invert_throw_leaves_heap _ 1%positive (Some 2%positive)).
  reflexivity.
Defined.

(** ** Which instance a call returns *)

Lemma multiply_run σ this matrix optresult av bv rv :
  σ !! this = Some av → σ !! matrix = Some bv →
  σ !! default this optresult = Some rv → length rv = 16 →
  Matrix4.multiply this matrix optresult σ
  = Ok (default this optresult) (<[default this optresult := product av bv]> σ).
Proof. intros. unfold Matrix4.multiply. by eapply static_multiply_run. Qed.

Lemma preMultiply_run σ this matrix optresult av bv rv :
  σ !! this = Some av → σ !! matrix = Some bv →
  σ !! default this optresult = Some rv → length rv = 16 →
  Matrix4.preMultiply this matrix optresult σ
  = Ok (default this optresult) (<[default this optresult := product bv av]> σ).
Proof. intros. unfold Matrix4.preMultiply. by eapply static_multiply_run. Qed.

Lemma invert_returns_receiver σ this optresult r σ' :
  Matrix4.invert this optresult σ = Ok r σ' → r = this.
Proof.
  intros Hok.
  destruct (determinant_run σ this) as [d Hd].
  pose proof (invert_run σ this optresult d Hd) as Hrun.
  destruct (d =? 0)%float.
  - rewrite Hrun in Hok. discriminate Hok.
  - destruct Hrun as [σ'' Hrun]. rewrite Hrun in Hok. by injection Hok as <- _.
Qed.

(** [const M = new Matrix4().scale(2); const R = new Matrix4();
     const ret = M.invert(R);] *)
Definition invert_into_result : js (loc * loc * loc) :=
  M ← (Matrix4.constructor ≫= λ m, Matrix4.scale m 2 None);
  R ← Matrix4.constructor;
  ret ← Matrix4.invert M (Some R);
  mret (M, R, ret).

(** C8, at the failing input. With a result instance R other than the
    receiver M, [M.invert(R)] writes the inverse into R, leaves M as it was,
    and returns M: the returned instance is not the one that was written. *)
Theorem invert_into_result_returns_receiver :
  ∃ M R σ,
    invert_into_result ∅ = Ok (M, R, M) σ ∧ M ≠ R ∧
    σ !! M = Some [2; 0; 0; 0; 0; 2; 0; 0; 0; 0; 2; 0; 0; 0; 0; 2]%float ∧
    σ !! R = Some [0.5; 0; 0; 0; 0; 0.5; 0; 0; 0; 0; 0.5; 0; 0; 0; 0; 0.5]%float.
Proof.
  eexists _, _, _. split; [vm_compute; reflexivity|].
  split; [discriminate|]. split; vm_compute; reflexivity.
Qed.

(** ** scale with a result instance *)

Lemma float_differs (x y : float) : Prim2SF x ≠ Prim2SF y → x ≠ y.
Proof. congruence. Qed.

(** [const M = new Matrix4().fromArray([1, 2, ..., 16]);
     const R = new Matrix4(); const ret = M.scale(2, R);] *)
Definition scale_into_result : js (loc * loc * loc) :=
  values ← new_Array [1; 2; 3; 4; 5; 6; 7; 8; 9; 10; 11; 12; 13; 14; 15; 16]%float;
  M ← (Matrix4.constructor ≫= λ m, Matrix4.fromArray m values);
  R ← Matrix4.constructor;
  ret ← Matrix4.scale M 2 (Some R);
  mret (M, R, ret).

(** C1, at the failing input. With a result instance R other than the
    receiver M, [M.scale(2, R)] returns R holding R's own former entries
    doubled (here the identity doubled), not M's entries doubled; M is left
    as it was. *)
Theorem scale_into_result_scales_result :
  ∃ M R σ,
    scale_into_result ∅ = Ok (M, R, R) σ ∧ M ≠ R ∧
    σ !! M = Some [1; 2; 3; 4; 5; 6; 7; 8; 9; 10; 11; 12; 13; 14; 15; 16]%float ∧
    σ !! R = Some [2; 0; 0; 0; 0; 2; 0; 0; 0; 0; 2; 0; 0; 0; 0; 2]%float ∧
    σ !! R ≠ Some ((λ x, x * 2)%float <$>
                   [1; 2; 3; 4; 5; 6; 7; 8; 9; 10; 11; 12; 13; 14; 15; 16]%float).
Proof.
  eexists _, _, _. split; [vm_compute; reflexivity|].
  split; [discriminate|]. split; [vm_compute; reflexivity|].
  split; [vm_compute; reflexivity|].
  intros H. apply (f_equal (λ o : option (list float), (default [] o).[1])) in H.
  revert H. apply float_differs. vm_compute. discriminate.
Qed.

(** ** transpose and resetPos *)

(** The transposed buffer: entry [4*col+row] is the former entry
    [4*row+col]. *)
Definition transposed (b : list float) : list float :=
  [b.[0]; b.[4]; b.[8]; b.[12];
   b.[1]; b.[5]; b.[9]; b.[13];
   b.[2]; b.[6]; b.[10]; b.[14];
   b.[3]; b.[7]; b.[11]; b.[15]].

(** A heap with one instance, whose entries are all different, and a second
    one holding the identity. *)
Definition sequential : list float :=
  [1; 2; 3; 4; 5; 6; 7; 8; 9; 10; 11; 12; 13; 14; 15; 16]%float.

Definition two_instances : heap :=
  {[ 1%positive := sequential;
     2%positive := [1; 0; 0; 0; 0; 1; 0; 0; 0; 0; 1; 0; 0; 0; 0; 1]%float ]}.

Lemma transpose_run σ this b :
  σ !! this = Some b → length b = 16 →
  Matrix4.transpose this σ = Ok this (<[this := transposed b]> σ).
Proof.
  intros Hb Hlen. sixteen b Hlen.
  unfold Matrix4.transpose. cbv zeta.
  rewrite !(run_load _ _ _ _ _ Hb), (run_store _ _ _ _ _ _ Hb).
  run_here. reflexivity.
Qed.

(** X1. [transpose()] returns the receiver, whose entry at row [row] and column
    [col] is now the entry it had at row [col] and column [row]; no other
    array changes. *)
Theorem transpose_swaps_rows_and_columns σ this b :
  σ !! this = Some b → length b = 16 →
  ∃ b',
    Matrix4.transpose this σ = Ok this (<[this := b']> σ) ∧
    length b' = 16 ∧
    ∀ row col, row < 4 → col < 4 → b'.[4 * col + row] = b.[4 * row + col].
Proof.
  intros Hb Hlen. exists (transposed b).
  split; [by apply transpose_run|]. split; [reflexivity|].
  intros row col Hr Hc.
  do 4 (destruct row as [|row];
        [do 4 (destruct col as [|col]; [reflexivity|]); lia|]).
  lia.
Qed.

Lemma transpose_swaps_rows_and_columns_witness :
  ∃ b',
    Matrix4.transpose 1%positive two_instances
    = Ok 1%positive (<[1%positive := b']> two_instances) ∧
    length b' = 16 ∧
    ∀ row col, row < 4 → col < 4 →
      b'.[4 * col + row] = sequential.[4 * row + col].
Proof.
  apply (transpose_swaps_rows_and_columns two_instances 1%positive sequential);
    reflexivity.
Defined.

(** X2. Transposing twice leaves every entry, and the whole heap, as it was. *)
Theorem transpose_twice_restores σ this b :
  σ !! this = Some b → length b = 16 →
  (Matrix4.transpose this ≫= Matrix4.transpose) σ = Ok this σ.
Proof.
  intros Hb Hlen.
  rewrite (run_bind_ok _ _ _ _ _ (transpose_run σ this b Hb Hlen)).
  rewrite (transpose_run _ this (transposed b)) by
    (apply lookup_insert_eq || reflexivity).
  rewrite insert_insert_eq. f_equal.
  sixteen b Hlen. by apply insert_id.
Qed.

Lemma transpose_twice_restores_witness :
  (Matrix4.transpose 1%positive ≫= Matrix4.transpose) two_instances
  = Ok 1%positive two_instances.
Proof.
  apply (transpose_twice_restores two_instances 1%positive sequential);
    reflexivity.
Defined.

Lemma resetPos_run σ this b :
  σ !! this = Some b → length b = 16 →
  Matrix4.resetPos this σ
  = Ok this (<[this := take 12 b ++ [0; 0; 0; b.[15]]%float]> σ).
Proof.
  intros Hb Hlen. sixteen b Hlen.
  unfold Matrix4.resetPos. cbv zeta.
  rewrite (run_store _ _ _ _ _ _ Hb).
  run_here. reflexivity.
Qed.

(** X3. [resetPos()] returns the receiver with entries 12, 13 and 14 set to 0 and
    the thirteen other entries as they were. *)
Theorem resetPos_zeroes_the_translation σ this b :
  σ !! this = Some b → length b = 16 →
  ∃ b',
    Matrix4.resetPos this σ = Ok this (<[this := b']> σ) ∧
    length b' = 16 ∧
    b'.[12] = 0%float ∧ b'.[13] = 0%float ∧ b'.[14] = 0%float ∧
    ∀ i, i < 12 ∨ i = 15 → b'.[i] = b.[i].
Proof.
  intros Hb Hlen. eexists. split; [by apply resetPos_run|].
  sixteen b Hlen. repeat split.
  intros i [Hi| ->]; [|reflexivity].
  do 12 (destruct i as [|i]; [reflexivity|]). lia.
Qed.

Lemma resetPos_zeroes_the_translation_witness :
  ∃ b',
    Matrix4.resetPos 1%positive two_instances
    = Ok 1%positive (<[1%positive := b']> two_instances) ∧
    length b' = 16 ∧
    b'.[12] = 0%float ∧ b'.[13] = 0%float ∧ b'.[14] = 0%float ∧
    ∀ i, i < 12 ∨ i = 15 → b'.[i] = sequential.[i].
Proof.
  apply (resetPos_zeroes_the_translation two_instances 1%positive sequential);
    reflexivity.
Defined.

(** ** The builders without a scale *)

Lemma composePos_run σ this b position :
  σ !! this = Some b → length b = 16 →
  Matrix4.composePos this position σ
  = Ok this (<[this := [1; 0; 0; 0; 0; 1; 0; 0; 0; 0; 1; 0;
                        Vector3.x position; Vector3.y position;
                        Vector3.z position; 1]%float]> σ).
Proof.
  intros Hb Hlen. sixteen b Hlen.
  unfold Matrix4.composePos. cbv zeta.
  rewrite (run_store _ _ _ _ _ _ Hb).
  run_here. reflexivity.
Qed.

(** The rotation block that [composePosRot] and [composePosRotSca] derive
    from a quaternion, column by column, before any scale. *)
Definition rotation_columns (q : Quaternion.t) : list float * list float * list float :=
  let xs := (Quaternion.x q * 2)%float in
  let ys := (Quaternion.y q * 2)%float in
  let zs := (Quaternion.z q * 2)%float in
  let wx := (Quaternion.w q * xs)%float in
  let wy := (Quaternion.w q * ys)%float in
  let wz := (Quaternion.w q * zs)%float in
  let xx := (Quaternion.x q * xs)%float in
  let xy := (Quaternion.x q * ys)%float in
  let xz := (Quaternion.x q * zs)%float in
  let yy := (Quaternion.y q * ys)%float in
  let yz := (Quaternion.y q * zs)%float in
  let zz := (Quaternion.z q * zs)%float in
  ([1 - (yy + zz); xy + wz; xz - wy]%float,
   [xy - wz; 1 - (xx + zz); yz + wx]%float,
   [xz + wy; yz - wx; 1 - (xx + yy)]%float).

Lemma composePosRot_run σ this b position rotation :
  σ !! this = Some b → length b = 16 →
  Matrix4.composePosRot this position rotation σ
  = Ok this
      (<[this :=
           let '(c0, c1, c2) := rotation_columns rotation in
           [c0.[0]; c0.[1]; c0.[2]; 0; c1.[0]; c1.[1]; c1.[2]; 0;
            c2.[0]; c2.[1]; c2.[2]; 0;
            Vector3.x position; Vector3.y position; Vector3.z position; 1]%float]> σ).
Proof.
  intros Hb Hlen. sixteen b Hlen.
  unfold Matrix4.composePosRot. cbv zeta.
  rewrite (run_store _ _ _ _ _ _ Hb).
  run_here. reflexivity.
Qed.

Lemma composePosRotSca_run σ this b position rotation scale :
  σ !! this = Some b → length b = 16 →
  Matrix4.composePosRotSca this position rotation scale σ
  = Ok this
      (<[this :=
           let '(c0, c1, c2) := rotation_columns rotation in
           [Vector3.x scale * c0.[0]; Vector3.x scale * c0.[1];
            Vector3.x scale * c0.[2]; 0;
            Vector3.y scale * c1.[0]; Vector3.y scale * c1.[1];
            Vector3.y scale * c1.[2]; 0;
            Vector3.z scale * c2.[0]; Vector3.z scale * c2.[1];
            Vector3.z scale * c2.[2]; 0;
            Vector3.x position; Vector3.y position; Vector3.z position; 1]%float]> σ).
Proof.
  intros Hb Hlen. sixteen b Hlen.
  unfold Matrix4.composePosRotSca. cbv zeta.
  rewrite (run_store _ _ _ _ _ _ Hb).
  run_here. reflexivity.
Qed.

(** X4. [composePos(p)] and [composePosRot(p, q)] with q the identity quaternion
    (0, 0, 0, 1) leave the same buffer, whatever the receiver held: the
    identity with p in entries 12 to 14. *)
Theorem composePosRot_identity_rotation σ this b position :
  σ !! this = Some b → length b = 16 →
  Matrix4.composePosRot this position (Quaternion.mk 0 0 0 1) σ
  = Matrix4.composePos this position σ
  ∧ Matrix4.composePos this position σ
    = Ok this (<[this := [1; 0; 0; 0; 0; 1; 0; 0; 0; 0; 1; 0;
                          Vector3.x position; Vector3.y position;
                          Vector3.z position; 1]%float]> σ).
Proof.
  intros Hb Hlen.
  rewrite (composePos_run σ this b position Hb Hlen).
  rewrite (composePosRot_run σ this b position _ Hb Hlen).
  split; [|reflexivity]. vm_compute rotation_columns. reflexivity.
Qed.

Lemma composePosRot_identity_rotation_witness :
  Matrix4.composePosRot 1%positive (Vector3.mk 7 8 9) (Quaternion.mk 0 0 0 1)
    two_instances
  = Matrix4.composePos 1%positive (Vector3.mk 7 8 9) two_instances
  ∧ Matrix4.composePos 1%positive (Vector3.mk 7 8 9) two_instances
    = Ok 1%positive
        (<[1%positive := [1; 0; 0; 0; 0; 1; 0; 0; 0; 0; 1; 0; 7; 8; 9; 1]%float]>
           two_instances).
Proof.
  apply (composePosRot_identity_rotation two_instances 1%positive sequential);
    reflexivity.
Defined.

(** X5. [composeRot(q)] leaves what [composePosRot(p, q)] followed by
    [resetPos()] leaves, for every position p. *)
Theorem composeRot_is_composePosRot_then_resetPos σ this b position rotation :
  σ !! this = Some b → length b = 16 →
  Matrix4.composeRot this rotation σ
  = (Matrix4.composePosRot this position rotation ≫= Matrix4.resetPos) σ.
Proof.
  intros Hb Hlen. unfold Matrix4.composeRot.
  rewrite (composePosRot_run σ this b Vector3.ZERO rotation Hb Hlen).
  rewrite (run_bind_ok _ _ _ _ _
             (composePosRot_run σ this b position rotation Hb Hlen)).
  erewrite resetPos_run;
    [|apply lookup_insert_eq|by destruct (rotation_columns rotation) as [[??]?]].
  rewrite insert_insert_eq.
  by destruct (rotation_columns rotation) as [[??]?].
Qed.

Lemma composeRot_is_composePosRot_then_resetPos_witness :
  Matrix4.composeRot 1%positive (Quaternion.mk 0.5 0.5 0.5 0.5) two_instances
  = (Matrix4.composePosRot 1%positive (Vector3.mk 7 8 9)
       (Quaternion.mk 0.5 0.5 0.5 0.5) ≫= Matrix4.resetPos) two_instances.
Proof.
  apply (composeRot_is_composePosRot_then_resetPos two_instances 1%positive
           sequential); reflexivity.
Defined.

(** ** Binary64 facts: multiplying by one *)

(** These follow the specification of the primitive operations
    ([FloatAxioms]) down to the rounding of a mantissa. *)

Lemma fexp_canonical m e :
  bounded prec emax m e = true →
  fexp prec emax (Zpos (digits2_pos m) + e) = e ∧ (e <= emax - prec)%Z.
Proof.
  unfold bounded, canonical_mantissa. intros H.
  apply Bool.andb_true_iff in H as [H1 H2].
  apply Z.eqb_eq in H1. apply Z.leb_le in H2. done.
Qed.

Lemma digits2_iter_xO (n : nat) p :
  Zpos (digits2_pos (Nat.iter n xO p)) = (Zpos (digits2_pos p) + Z.of_nat n)%Z.
Proof.
  induction n as [|n IH]; [simpl; lia|].
  rewrite Nat2Z.inj_succ. simpl Nat.iter. cbn [digits2_pos].
  change PosDef.Pos.succ with Pos.succ. rewrite Pos2Z.inj_succ, IH. lia.
Qed.

Lemma digits2_shifted52 m :
  Zpos (digits2_pos (4503599627370496 * m)) = (Zpos (digits2_pos m) + 52)%Z.
Proof. exact (digits2_iter_xO 52 m). Qed.

Lemma shr_shifted52 m e :
  shr {| shr_m := Zpos (4503599627370496 * m); shr_r := false; shr_s := false |}
      e 52
  = ({| shr_m := Zpos m; shr_r := false; shr_s := false |}, (e + 52)%Z).
Proof. reflexivity. Qed.

Ltac round_step :=
  cbn [shr shr_record_of_loc round_nearest_even loc_of_shr_record
       shr_m shr_r shr_s Zdigits2].

(** A mantissa with 52 more low zero bits and an exponent 52 lower rounds
    back to the number it denotes. *)
Lemma binary_round_shifted52 s m e :
  bounded prec emax m e = true →
  binary_round_aux prec emax s (Zpos (4503599627370496 * m)) (-52 + e) loc_Exact
  = S754_finite s m e.
Proof.
  intros Hb. destruct (fexp_canonical m e Hb) as [Hc Hle].
  unfold binary_round_aux, shr_fexp.
  cbn [Zdigits2 shr_record_of_loc].
  rewrite digits2_shifted52.
  replace (Z.pos (digits2_pos m) + 52 + (-52 + e))%Z
    with (Z.pos (digits2_pos m) + e)%Z by lia.
  rewrite Hc. replace (e - (-52 + e))%Z with 52%Z by lia.
  rewrite shr_shifted52. round_step.
  replace (-52 + e + 52)%Z with e by lia.
  rewrite Hc, Z.sub_diag. round_step.
  apply Z.leb_le in Hle. by rewrite Hle.
Qed.

Lemma SFmul_one_l x :
  valid_binary x = true → SF64mul (Prim2SF 1) x = x.
Proof.
  intros Hv. change (Prim2SF 1) with (S754_finite false 4503599627370496 (-52)).
  destruct x as [s|s| |s m e]; try reflexivity.
  unfold SF64mul, SFmul. cbn [xorb]. by apply binary_round_shifted52.
Qed.

Lemma SFmul_comm x y : SF64mul x y = SF64mul y x.
Proof.
  destruct x as [[]|[]| |[] mx ex], y as [[]|[]| |[] my ey]; try reflexivity;
    unfold SF64mul, SFmul; cbn [xorb];
    change (PosDef.Pos.mul mx my) with (Pos.mul mx my);
    change (IntDef.Z.add ex ey) with (Z.add ex ey);
    by rewrite (Pos.mul_comm mx my), (Z.add_comm ex ey).
Qed.

(** [1 * x] and [x * 1] are [x], for every number: finite, infinite or NaN. *)
Lemma mul_one_l (x : float) : (1 * x)%float = x.
Proof.
  apply Prim2SF_inj. rewrite mul_spec. apply SFmul_one_l, Prim2SF_valid.
Qed.

Lemma mul_one_r (x : float) : (x * 1)%float = x.
Proof.
  apply Prim2SF_inj. rewrite mul_spec, SFmul_comm.
  apply SFmul_one_l, Prim2SF_valid.
Qed.

(** X6. [composePosRotSca(p, q, s)] with the unit scale s = (1, 1, 1) leaves
    exactly the buffer [composePosRot(p, q)] leaves, for every p and q. *)
Theorem composePosRotSca_unit_scale σ this b position rotation :
  σ !! this = Some b → length b = 16 →
  Matrix4.composePosRotSca this position rotation (Vector3.mk 1 1 1) σ
  = Matrix4.composePosRot this position rotation σ.
Proof.
  intros Hb Hlen.
  rewrite (composePosRotSca_run σ this b position rotation _ Hb Hlen).
  rewrite (composePosRot_run σ this b position rotation Hb Hlen).
  destruct (rotation_columns rotation) as [[c0 c1] c2].
  cbn [Vector3.x Vector3.y Vector3.z]. by rewrite !mul_one_l.
Qed.

Lemma composePosRotSca_unit_scale_witness :
  Matrix4.composePosRotSca 1%positive (Vector3.mk 7 8 9)
    (Quaternion.mk 0.5 0.5 0.5 0.5) (Vector3.mk 1 1 1) two_instances
  = Matrix4.composePosRot 1%positive (Vector3.mk 7 8 9)
      (Quaternion.mk 0.5 0.5 0.5 0.5) two_instances.
Proof.
  apply (composePosRotSca_unit_scale two_instances 1%positive sequential);
    reflexivity.
Defined.

(** X7. [scale(1)] and [scale(1, result)] leave the heap as it was: every entry
    of the written instance is multiplied by one, which changes no number. *)
Theorem scale_by_one_changes_nothing σ this optresult b :
  σ !! default this optresult = Some b → length b = 16 →
  Matrix4.scale this 1 optresult σ = Ok (default this optresult) σ.
Proof.
  intros Hb Hlen. rewrite (scale_run σ this 1 optresult b Hb Hlen). f_equal.
  apply insert_id. rewrite Hb. f_equal.
  clear Hb Hlen. induction b as [|x b IH]; [reflexivity|].
  cbn [fmap list_fmap]. by rewrite mul_one_r, <- IH at 1.
Qed.

Lemma scale_by_one_changes_nothing_witness :
  Matrix4.scale 1%positive 1 (Some 2%positive) two_instances
  = Ok 2%positive two_instances
  ∧ Matrix4.scale 1%positive 1 None two_instances = Ok 1%positive two_instances.
Proof.
  split.
  - apply (scale_by_one_changes_nothing two_instances 1%positive (Some 2%positive)
             [1; 0; 0; 0; 0; 1; 0; 0; 0; 0; 1; 0; 0; 0; 0; 1]%float); reflexivity.
  - apply (scale_by_one_changes_nothing two_instances 1%positive None sequential);
      reflexivity.
Defined.

(** ** Composition followed by decomposition *)

(** X8. Whatever the rotation and the scale (unit or not, positive or not),
    [decomposePosRotSca] after [composePosRotSca(p, q, s)] writes exactly p
    into the position output, and leaves the matrix as composed. *)
Theorem decompose_recovers_position σ this b p q s p0 q0 s0 :
  σ !! this = Some b → length b = 16 →
  ∃ q' s' σ',
    Matrix4.composePosRotSca this p q s σ = Ok this σ' ∧
    (Matrix4.composePosRotSca this p q s ≫= λ m,
       Matrix4.decomposePosRotSca m p0 q0 s0) σ
    = Ok (p, q', s') σ'.
Proof.
  intros Hb Hlen.
  pose proof (composePosRotSca_run σ this b p q s Hb Hlen) as Hrun.
  destruct (rotation_columns q) as [[c0 c1] c2].
  destruct p as [px py pz].
  eexists _, _, _. split; [exact Hrun|].
  rewrite (run_bind_ok _ _ _ _ _ Hrun).
  unfold Matrix4.decomposePosRotSca.
  rewrite (run_deref _ _ this _ (lookup_insert_eq _ _ _)).
  reflexivity.
Qed.

Lemma decompose_recovers_position_witness :
  ∃ q' s' σ',
    Matrix4.composePosRotSca 1%positive (Vector3.mk 7 8 9)
      (Quaternion.mk 0.5 0.5 0.5 0.5) (Vector3.mk 2 4 8) two_instances
    = Ok 1%positive σ' ∧
    (Matrix4.composePosRotSca 1%positive (Vector3.mk 7 8 9)
       (Quaternion.mk 0.5 0.5 0.5 0.5) (Vector3.mk 2 4 8) ≫= λ m,
       Matrix4.decomposePosRotSca m Vector3.ZERO (Quaternion.mk 0 0 0 1)
         Vector3.ZERO) two_instances
    = Ok (Vector3.mk 7 8 9, q', s') σ'.
Proof.
  apply (decompose_recovers_position two_instances 1%positive sequential);
    reflexivity.
Defined.

(** ** clone and copy *)

(** X9. [clone()] returns an instance that did not exist before, holding the
    receiver's sixteen entries; every array of the heap is as it was, and
    scaling the clone afterwards leaves the receiver's entries alone. *)
Theorem clone_is_a_separate_instance σ this b :
  σ !! this = Some b → length b = 16 →
  ∃ c σ',
    Matrix4.clone this σ = Ok c σ' ∧
    σ !! c = None ∧ σ' !! c = Some b ∧
    (∀ l, l ≠ c → σ' !! l = σ !! l) ∧
    ∀ f, ∃ σ'',
      (Matrix4.clone this ≫= λ c, Matrix4.scale c f None) σ = Ok c σ'' ∧
      σ'' !! this = Some b.
Proof.
  intros Hb Hlen.
  pose proof (clone_run σ this b Hb Hlen) as Hrun.
  pose proof (fresh_loc_ne σ this b Hb) as Hne.
  eexists _, _. split; [exact Hrun|].
  split; [apply fresh_loc_unused|].
  split; [apply lookup_insert_eq|].
  split; [intros l Hl; by rewrite lookup_insert_ne|].
  intros f. eexists.
  rewrite (run_bind_ok _ _ _ _ _ Hrun). cbv beta.
  split.
  - apply (scale_run _ _ f None b); [apply lookup_insert_eq|exact Hlen].
  - simpl default. by rewrite insert_insert_eq, lookup_insert_ne.
Qed.

Lemma clone_is_a_separate_instance_witness :
  ∃ c σ',
    Matrix4.clone 1%positive two_instances = Ok c σ' ∧
    two_instances !! c = None ∧ σ' !! c = Some sequential ∧
    (∀ l, l ≠ c → σ' !! l = two_instances !! l) ∧
    ∀ f, ∃ σ'',
      (Matrix4.clone 1%positive ≫= λ c, Matrix4.scale c f None) two_instances
      = Ok c σ'' ∧
      σ'' !! 1%positive = Some sequential.
Proof.
  apply (clone_is_a_separate_instance two_instances 1%positive sequential);
    reflexivity.
Defined.

(** X10. [copy(matrix)] never throws: it returns the receiver holding the sixteen
    entries of [matrix], which keeps them; copying an instance onto itself
    changes nothing. *)
Theorem copy_takes_the_entries σ this matrix b v :
  σ !! this = Some b → length b = 16 →
  σ !! matrix = Some v → length v = 16 →
  Matrix4.copy this matrix σ = Ok this (<[this := v]> σ) ∧
  (<[this := v]> σ) !! matrix = Some v ∧
  (this = matrix → <[this := v]> σ = σ).
Proof.
  intros Hb Hlen Hv Hlenv. split; [|split].
  - unfold Matrix4.copy.
    rewrite (fromArray_copies_or_rejects σ this matrix b v Hb Hlen Hv).
    rewrite Hlenv. simpl. by rewrite <- Hlenv, firstn_all.
  - destruct (decide (this = matrix)) as [->|Hne];
      [apply lookup_insert_eq|by rewrite lookup_insert_ne].
  - intros ->. by apply insert_id.
Qed.

Lemma copy_takes_the_entries_witness :
  Matrix4.copy 2%positive 1%positive two_instances
  = Ok 2%positive (<[2%positive := sequential]> two_instances) ∧
  (<[2%positive := sequential]> two_instances) !! 1%positive = Some sequential ∧
  (2%positive = 1%positive → <[2%positive := sequential]> two_instances = two_instances).
Proof.
  apply (copy_takes_the_entries two_instances 2%positive 1%positive
           [1; 0; 0; 0; 0; 1; 0; 0; 0; 0; 1; 0; 0; 0; 0; 1]%float sequential);
    reflexivity.
Defined.

(** ** deserialise, then serialise *)

(** X11. For every record j, [M.deserialise(j).serialise()] is j, field for field. *)
Theorem serialise_deserialise_roundtrip σ this b j :
  σ !! this = Some b → length b = 16 →
  ∃ σ',
    (Matrix4.deserialise this j ≫= Matrix4.serialise) σ = Ok j σ' ∧
    Matrix4.deserialise this j σ = Ok this σ'.
Proof.
  intros Hb Hlen. eexists.
  assert (Matrix4.deserialise this j σ = Ok this _) as Hrun
    by (unfold Matrix4.deserialise; by apply set_run with b).
  split; [|exact Hrun].
  rewrite (run_bind_ok _ _ _ _ _ Hrun).
  unfold Matrix4.serialise.
  rewrite (run_deref _ _ this _ (lookup_insert_eq _ _ _)).
  by destruct j.
Qed.

Lemma serialise_deserialise_roundtrip_witness :
  ∃ σ',
    (Matrix4.deserialise 2%positive
       (Matrix4.Build_Matrix4Json 1 2 3 4 5 6 7 8 9 10 11 12 13 14 15 16)
     ≫= Matrix4.serialise) two_instances
    = Ok (Matrix4.Build_Matrix4Json 1 2 3 4 5 6 7 8 9 10 11 12 13 14 15 16) σ' ∧
    Matrix4.deserialise 2%positive
      (Matrix4.Build_Matrix4Json 1 2 3 4 5 6 7 8 9 10 11 12 13 14 15 16)
      two_instances
    = Ok 2%positive σ'.
Proof.
  apply (serialise_deserialise_roundtrip two_instances 2%positive
           [1; 0; 0; 0; 0; 1; 0; 0; 0; 0; 1; 0; 0; 0; 0; 1]%float); reflexivity.
Defined.

(** ** set takes its arguments row by row *)

(** X12. [set(a0, ..., a15)] followed by [transpose()] leaves the buffer
    [a0, ..., a15] in argument order: the sixteen arguments of [set] are the
    rows of the matrix, while the buffer holds its columns. *)
Theorem set_then_transpose_is_argument_order σ this b
    (a0 a1 a2 a3 a4 a5 a6 a7 a8 a9 a10 a11 a12 a13 a14 a15 : float) :
  σ !! this = Some b → length b = 16 →
  (Matrix4.set this a0 a1 a2 a3 a4 a5 a6 a7 a8 a9 a10 a11 a12 a13 a14 a15
   ≫= Matrix4.transpose) σ
  = Ok this (<[this := [a0; a1; a2; a3; a4; a5; a6; a7;
                        a8; a9; a10; a11; a12; a13; a14; a15]]> σ).
Proof.
  intros Hb Hlen.
  rewrite (run_bind_ok _ _ _ _ _ (set_run σ this b _ _ _ _ _ _ _ _ _ _ _ _ _ _ _ _ Hb Hlen)).
  erewrite transpose_run; [|apply lookup_insert_eq|reflexivity].
  by rewrite insert_insert_eq.
Qed.

Lemma set_then_transpose_is_argument_order_witness :
  (Matrix4.set 2%positive 1 2 3 4 5 6 7 8 9 10 11 12 13 14 15 16
   ≫= Matrix4.transpose) two_instances
  = Ok 2%positive (<[2%positive := sequential]> two_instances).
Proof.
  apply (set_then_transpose_is_argument_order two_instances 2%positive
           [1; 0; 0; 0; 0; 1; 0; 0; 0; 0; 1; 0; 0; 0; 0; 1]%float); reflexivity.
Defined.

(** ** invert when the determinant is not zero *)

(** The determinant read in a heap is the one read after other arrays have
    been allocated or written. *)
Lemma determinant_depends_on_receiver σ σ' this d :
  σ' !!! this = σ !!! this →
  Matrix4.determinant this σ = Ok d σ → Matrix4.determinant this σ' = Ok d σ'.
Proof.
  unfold Matrix4.determinant. rewrite !run_deref_any. intros ->.
  unfold mret, js_ret. by intros [= ->].
Qed.

Lemma invert_run_ok σ this optresult b r d :
  σ !! this = Some b → σ !! default this optresult = Some r → length r = 16 →
  Matrix4.determinant this σ = Ok d σ → (d =? 0)%float = false →
  ∃ v, length v = 16 ∧
       Matrix4.invert this optresult σ
       = Ok this (<[default this optresult := v]> σ) ∧
       ∀ r' optresult', σ !! default this optresult' = Some r' → length r' = 16 →
         Matrix4.invert this optresult' σ
         = Ok this (<[default this optresult' := v]> σ).
Proof.
  intros Hb Hr Hlen Hd Hnz.
  assert (∀ r' optresult', σ !! default this optresult' = Some r' →
            length r' = 16 →
            ∃ v, length v = 16 ∧ Matrix4.invert this optresult' σ
                 = Ok this (<[default this optresult' := v]> σ) ∧
                 v = (let m := b in
                      let idet := (1 / d)%float in
                      [ (m.[9] * m.[14] * m.[7] - m.[13] * m.[10] * m.[7] + m.[13] * m.[6] * m.[11] - m.[5] * m.[14] * m.[11] - m.[9] * m.[6] * m.[15] + m.[5] * m.[10] * m.[15]) * idet;
                        (m.[13] * m.[10] * m.[3] - m.[9] * m.[14] * m.[3] - m.[13] * m.[2] * m.[11] + m.[1] * m.[14] * m.[11] + m.[9] * m.[2] * m.[15] - m.[1] * m.[10] * m.[15]) * idet;
                        (m.[5] * m.[14] * m.[3] - m.[13] * m.[6] * m.[3] + m.[13] * m.[2] * m.[7] - m.[1] * m.[14] * m.[7] - m.[5] * m.[2] * m.[15] + m.[1] * m.[6] * m.[15]) * idet;
                        (m.[9] * m.[6] * m.[3] - m.[5] * m.[10] * m.[3] - m.[9] * m.[2] * m.[7] + m.[1] * m.[10] * m.[7] + m.[5] * m.[2] * m.[11] - m.[1] * m.[6] * m.[11]) * idet;
                        (m.[12] * m.[10] * m.[7] - m.[8] * m.[14] * m.[7] - m.[12] * m.[6] * m.[11] + m.[4] * m.[14] * m.[11] + m.[8] * m.[6] * m.[15] - m.[4] * m.[10] * m.[15]) * idet;
                        (m.[8] * m.[14] * m.[3] - m.[12] * m.[10] * m.[3] + m.[12] * m.[2] * m.[11] - m.[0] * m.[14] * m.[11] - m.[8] * m.[2] * m.[15] + m.[0] * m.[10] * m.[15]) * idet;
                        (m.[12] * m.[6] * m.[3] - m.[4] * m.[14] * m.[3] - m.[12] * m.[2] * m.[7] + m.[0] * m.[14] * m.[7] + m.[4] * m.[2] * m.[15] - m.[0] * m.[6] * m.[15]) * idet;
                        (m.[4] * m.[10] * m.[3] - m.[8] * m.[6] * m.[3] + m.[8] * m.[2] * m.[7] - m.[0] * m.[10] * m.[7] - m.[4] * m.[2] * m.[11] + m.[0] * m.[6] * m.[11]) * idet;
                        (m.[8] * m.[13] * m.[7] - m.[12] * m.[9] * m.[7] + m.[12] * m.[5] * m.[11] - m.[4] * m.[13] * m.[11] - m.[8] * m.[5] * m.[15] + m.[4] * m.[9] * m.[15]) * idet;
                        (m.[12] * m.[9] * m.[3] - m.[8] * m.[13] * m.[3] - m.[12] * m.[1] * m.[11] + m.[0] * m.[13] * m.[11] + m.[8] * m.[1] * m.[15] - m.[0] * m.[9] * m.[15]) * idet;
                        (m.[4] * m.[13] * m.[3] - m.[12] * m.[5] * m.[3] + m.[12] * m.[1] * m.[7] - m.[0] * m.[13] * m.[7] - m.[4] * m.[1] * m.[15] + m.[0] * m.[5] * m.[15]) * idet;
                        (m.[8] * m.[5] * m.[3] - m.[4] * m.[9] * m.[3] - m.[8] * m.[1] * m.[7] + m.[0] * m.[9] * m.[7] + m.[4] * m.[1] * m.[11] - m.[0] * m.[5] * m.[11]) * idet;
                        (m.[12] * m.[9] * m.[6] - m.[8] * m.[13] * m.[6] - m.[12] * m.[5] * m.[10] + m.[4] * m.[13] * m.[10] + m.[8] * m.[5] * m.[14] - m.[4] * m.[9] * m.[14]) * idet;
                        (m.[8] * m.[13] * m.[2] - m.[12] * m.[9] * m.[2] + m.[12] * m.[1] * m.[10] - m.[0] * m.[13] * m.[10] - m.[8] * m.[1] * m.[14] + m.[0] * m.[9] * m.[14]) * idet;
                        (m.[12] * m.[5] * m.[2] - m.[4] * m.[13] * m.[2] - m.[12] * m.[1] * m.[6] + m.[0] * m.[13] * m.[6] + m.[4] * m.[1] * m.[14] - m.[0] * m.[5] * m.[14]) * idet;
                        (m.[4] * m.[9] * m.[2] - m.[8] * m.[5] * m.[2] + m.[8] * m.[1] * m.[6] - m.[0] * m.[9] * m.[6] - m.[4] * m.[1] * m.[10] + m.[0] * m.[5] * m.[10]) * idet
                      ]%float)) as Hany.
  { intros r' optresult' Hr' Hlen'. eexists. split; [|split; [|reflexivity]];
      [reflexivity|].
    sixteen r' Hlen'. unfold Matrix4.invert.
    rewrite (run_bind_ok _ _ _ _ _ Hd), Hnz. cbv zeta.
    rewrite (run_deref _ _ _ _ Hb), (run_store _ _ _ _ _ _ Hr').
    run_here. reflexivity. }
  destruct (Hany r optresult Hr Hlen) as (v & Hv16 & Hrun & Hv).
  exists v. split; [exact Hv16|]. split; [exact Hrun|].
  intros r' optresult' Hr' Hlen'.
  destruct (Hany r' optresult' Hr' Hlen') as (v' & _ & Hrun' & Hv').
  by rewrite Hrun', Hv, Hv'.
Qed.



(** ** Which entries scale and multiply read, and where they write *)

(** X14. [scale(f)] multiplies the receiver's entries by f in place. With a
    distinct result instance, [scale(f, result)] multiplies the entries that
    [result] held by f, returns [result], and neither reads nor writes the
    receiver's entries. *)
Theorem scale_reads_the_instance_it_writes σ this result b r f :
  σ !! this = Some b → length b = 16 →
  σ !! result = Some r → length r = 16 → this ≠ result →
  Matrix4.scale this f None σ
  = Ok this (<[this := (λ x, x * f)%float <$> b]> σ) ∧
  Matrix4.scale this f (Some result) σ
  = Ok result (<[result := (λ x, x * f)%float <$> r]> σ) ∧
  (<[result := (λ x, x * f)%float <$> r]> σ) !! this = Some b.
Proof.
  intros Hb Hlen Hr Hlenr Hne. split; [|split].
  - exact (scale_run σ this f None b Hb Hlen).
  - exact (scale_run σ this f (Some result) r Hr Hlenr).
  - by rewrite lookup_insert_ne.
Qed.

Lemma scale_reads_the_instance_it_writes_witness :
  Matrix4.scale 1%positive 2 None two_instances
  = Ok 1%positive (<[1%positive := (λ x, x * 2)%float <$> sequential]> two_instances) ∧
  Matrix4.scale 1%positive 2 (Some 2%positive) two_instances
  = Ok 2%positive
      (<[2%positive := (λ x, x * 2)%float <$>
                       [1; 0; 0; 0; 0; 1; 0; 0; 0; 0; 1; 0; 0; 0; 0; 1]%float]>
         two_instances) ∧
  (<[2%positive := (λ x, x * 2)%float <$>
                   [1; 0; 0; 0; 0; 1; 0; 0; 0; 0; 1; 0; 0; 0; 0; 1]%float]>
     two_instances) !! 1%positive = Some sequential.
Proof.
  apply (scale_reads_the_instance_it_writes two_instances 1%positive 2%positive
           sequential [1; 0; 0; 0; 0; 1; 0; 0; 0; 0; 1; 0; 0; 0; 0; 1]%float);
    try reflexivity.
  discriminate.
Defined.

(** X15. Without a result instance, [this.multiply(matrix)] replaces the
    receiver's entries by the product this * matrix and
    [this.preMultiply(matrix)] by the product matrix * this, entry
    [4*col+row] being row [row] of the left operand against column [col] of
    the right one; a distinct argument keeps its entries. *)
Theorem multiply_and_preMultiply_in_place σ this matrix a m :
  σ !! this = Some a → length a = 16 → σ !! matrix = Some m → this ≠ matrix →
  Matrix4.multiply this matrix None σ
  = Ok this (<[this := product a m]> σ) ∧
  Matrix4.preMultiply this matrix None σ
  = Ok this (<[this := product m a]> σ) ∧
  (<[this := product a m]> σ) !! matrix = Some m ∧
  (<[this := product m a]> σ) !! matrix = Some m ∧
  ∀ x y row col, row < 4 → col < 4 →
    (product x y).[4 * col + row] = dot x y row col.
Proof.
  intros Ha Hlen Hm Hne. split; [|split; [|split; [|split]]].
  - exact (multiply_run σ this matrix None a m a Ha Hm Ha Hlen).
  - exact (preMultiply_run σ this matrix None a m a Ha Hm Ha Hlen).
  - by rewrite lookup_insert_ne.
  - by rewrite lookup_insert_ne.
  - intros x y row col Hr Hc.
    do 4 (destruct row as [|row];
          [do 4 (destruct col as [|col]; [reflexivity|]); lia|]).
    lia.
Qed.

Lemma multiply_and_preMultiply_in_place_witness :
  Matrix4.multiply 1%positive 2%positive None two_instances
  = Ok 1%positive
      (<[1%positive := product sequential
                         [1; 0; 0; 0; 0; 1; 0; 0; 0; 0; 1; 0; 0; 0; 0; 1]%float]>
         two_instances) ∧
  Matrix4.preMultiply 1%positive 2%positive None two_instances
  = Ok 1%positive
      (<[1%positive := product [1; 0; 0; 0; 0; 1; 0; 0; 0; 0; 1; 0; 0; 0; 0; 1]%float
                         sequential]>
         two_instances) ∧
  (<[1%positive := product sequential
                     [1; 0; 0; 0; 0; 1; 0; 0; 0; 0; 1; 0; 0; 0; 0; 1]%float]>
     two_instances) !! 2%positive
  = Some [1; 0; 0; 0; 0; 1; 0; 0; 0; 0; 1; 0; 0; 0; 0; 1]%float ∧
  (<[1%positive := product [1; 0; 0; 0; 0; 1; 0; 0; 0; 0; 1; 0; 0; 0; 0; 1]%float
                     sequential]>
     two_instances) !! 2%positive
  = Some [1; 0; 0; 0; 0; 1; 0; 0; 0; 0; 1; 0; 0; 0; 0; 1]%float ∧
  ∀ x y row col, row < 4 → col < 4 →
    (product x y).[4 * col + row] = dot x y row col.
Proof.
  apply (multiply_and_preMultiply_in_place two_instances 1%positive 2%positive);
    try reflexivity.
  discriminate.
Defined.

(** X16. The static [Matrix4.multiply(a, b, result)] writes into [result] the
    product of the entries that [a] and [b] held when it was called, whether
    [result] is a third instance, [a] itself, [b] itself, or all three are
    one instance. *)
Theorem static_multiply_allows_any_aliasing σ a b result av bv rv :
  σ !! a = Some av → length av = 16 → σ !! b = Some bv → length bv = 16 →
  σ !! result = Some rv → length rv = 16 →
  Matrix4.static_multiply a b result σ
  = Ok result (<[result := product av bv]> σ) ∧
  Matrix4.static_multiply a b a σ = Ok a (<[a := product av bv]> σ) ∧
  Matrix4.static_multiply a b b σ = Ok b (<[b := product av bv]> σ) ∧
  Matrix4.static_multiply a a a σ = Ok a (<[a := product av av]> σ).
Proof.
  intros Ha Hlena Hb Hlenb Hr Hlenr. repeat split.
  - exact (static_multiply_run σ a b result av bv rv Ha Hb Hr Hlenr).
  - exact (static_multiply_run σ a b a av bv av Ha Hb Ha Hlena).
  - exact (static_multiply_run σ a b b av bv bv Ha Hb Hb Hlenb).
  - exact (static_multiply_run σ a a a av av av Ha Ha Ha Hlena).
Qed.

Lemma static_multiply_allows_any_aliasing_witness :
  Matrix4.static_multiply 1%positive 2%positive 2%positive two_instances
  = Ok 2%positive
      (<[2%positive := product sequential
                         [1; 0; 0; 0; 0; 1; 0; 0; 0; 0; 1; 0; 0; 0; 0; 1]%float]>
         two_instances) ∧
  Matrix4.static_multiply 1%positive 2%positive 1%positive two_instances
  = Ok 1%positive
      (<[1%positive := product sequential
                         [1; 0; 0; 0; 0; 1; 0; 0; 0; 0; 1; 0; 0; 0; 0; 1]%float]>
         two_instances) ∧
  Matrix4.static_multiply 1%positive 2%positive 2%positive two_instances
  = Ok 2%positive
      (<[2%positive := product sequential
                         [1; 0; 0; 0; 0; 1; 0; 0; 0; 0; 1; 0; 0; 0; 0; 1]%float]>
         two_instances) ∧
  Matrix4.static_multiply 1%positive 1%positive 1%positive two_instances
  = Ok 1%positive (<[1%positive := product sequential sequential]> two_instances).
Proof.
  apply (static_multiply_allows_any_aliasing two_instances 1%positive 2%positive
           2%positive sequential
           [1; 0; 0; 0; 0; 1; 0; 0; 0; 0; 1; 0; 0; 0; 0; 1]%float
           [1; 0; 0; 0; 0; 1; 0; 0; 0; 0; 1; 0; 0; 0; 0; 1]%float);
    reflexivity.
Defined.

(** ** Every mutating method at once *)

Lemma setToProjection_run Math_tan σ this b near far fov aspect :
  σ !! this = Some b → length b = 16 →
  Matrix4.setToProjection Math_tan this near far fov aspect σ
  = Ok this
      (<[this := [1 / Math_tan ((fov * (Math_PI / 180)) / 2) / aspect; 0; 0; 0;
                  0; 1 / Math_tan ((fov * (Math_PI / 180)) / 2); 0; 0;
                  0; 0; (far + near) / (near - far); -1;
                  0; 0; (2 * far * near) / (near - far); 0]%float]> σ).
Proof.
  intros Hb Hlen. sixteen b Hlen.
  unfold Matrix4.setToProjection. cbv zeta.
  rewrite (run_store _ _ _ _ _ _ Hb).
  run_here. reflexivity.
Qed.

Lemma identity_run σ this b :
  σ !! this = Some b → length b = 16 →
  Matrix4.identity this σ
  = Ok this (<[this := [1; 0; 0; 0; 0; 1; 0; 0; 0; 0; 1; 0; 0; 0; 0; 1]%float]> σ).
Proof.
  intros Hb Hlen. unfold Matrix4.identity.
  by rewrite (run_bind_ok _ _ _ _ _ (set_run σ this b _ _ _ _ _ _ _ _ _ _ _ _ _ _ _ _ Hb Hlen)).
Qed.

(** A call of one of the mutating methods of an instance, with its
    arguments. *)
Inductive call : Type :=
  | Call_set (m00 m01 m02 m03 m10 m11 m12 m13
              m20 m21 m22 m23 m30 m31 m32 m33 : float)
  | Call_identity
  | Call_deserialise (values : Matrix4.Matrix4Json)
  | Call_setToProjection (near far fov aspect : float)
  | Call_composePos (position : Vector3.t)
  | Call_composeRot (rotation : Quaternion.t)
  | Call_composePosRot (position : Vector3.t) (rotation : Quaternion.t)
  | Call_composePosRotSca (position : Vector3.t) (rotation : Quaternion.t)
                          (scale : Vector3.t)
  | Call_scale (scale : float) (optresult : option loc)
  | Call_multiply (matrix : loc) (optresult : option loc)
  | Call_preMultiply (matrix : loc) (optresult : option loc)
  | Call_fromArray (values : loc)
  | Call_copy (matrix : loc)
  | Call_invert (optresult : option loc)
  | Call_transpose
  | Call_resetPos.

Definition perform (Math_tan : float → float) (this : loc) (c : call) : js loc :=
  match c with
  | Call_set m00 m01 m02 m03 m10 m11 m12 m13 m20 m21 m22 m23 m30 m31 m32 m33 =>
      Matrix4.set this m00 m01 m02 m03 m10 m11 m12 m13
                       m20 m21 m22 m23 m30 m31 m32 m33
  | Call_identity => Matrix4.identity this
  | Call_deserialise values => Matrix4.deserialise this values
  | Call_setToProjection near far fov aspect =>
      Matrix4.setToProjection Math_tan this near far fov aspect
  | Call_composePos position => Matrix4.composePos this position
  | Call_composeRot rotation => Matrix4.composeRot this rotation
  | Call_composePosRot position rotation =>
      Matrix4.composePosRot this position rotation
  | Call_composePosRotSca position rotation scale =>
      Matrix4.composePosRotSca this position rotation scale
  | Call_scale scale optresult => Matrix4.scale this scale optresult
  | Call_multiply matrix optresult => Matrix4.multiply this matrix optresult
  | Call_preMultiply matrix optresult =>
      Matrix4.preMultiply this matrix optresult
  | Call_fromArray values => Matrix4.fromArray this values
  | Call_copy matrix => Matrix4.copy this matrix
  | Call_invert optresult => Matrix4.invert this optresult
  | Call_transpose => Matrix4.transpose this
  | Call_resetPos => Matrix4.resetPos this
  end.

(** The instance a call writes: the result instance where one is supplied,
    the receiver otherwise. *)
Definition written (this : loc) (c : call) : loc :=
  match c with
  | Call_scale _ optresult | Call_multiply _ optresult
  | Call_preMultiply _ optresult | Call_invert optresult =>
      default this optresult
  | _ => this
  end.

Definition is_matrix (σ : heap) (l : loc) : bool :=
  match σ !! l with
  | Some b => (length b =? 16)%nat
  | None => false
  end.

Definition is_array (σ : heap) (l : loc) : bool :=
  match σ !! l with
  | Some _ => true
  | None => false
  end.

(** The receiver and the instances among the arguments are matrices, and the
    argument of [fromArray] is an array. *)
Definition operands_exist (σ : heap) (this : loc) (c : call) : bool :=
  is_matrix σ this &&
  match c with
  | Call_scale _ optresult | Call_invert optresult =>
      is_matrix σ (default this optresult)
  | Call_multiply matrix optresult | Call_preMultiply matrix optresult =>
      is_matrix σ matrix && is_matrix σ (default this optresult)
  | Call_copy matrix => is_matrix σ matrix
  | Call_fromArray values => is_array σ values
  | _ => true
  end.

Lemma is_matrix_true σ l :
  is_matrix σ l = true → ∃ b, σ !! l = Some b ∧ length b = 16.
Proof.
  unfold is_matrix. destruct (σ !! l) as [b|]; [|discriminate].
  intros H%Nat.eqb_eq. by exists b.
Qed.

Ltac one_buffer :=
  split; [eexists; split; [|reflexivity]; reflexivity|reflexivity].

(** X17. Every mutating method, called on matrices, either throws one of the two
    errors with the heap untouched, or returns with exactly one array changed:
    the buffer of the written instance, which still has sixteen entries. The
    returned instance is the written one, except for [invert], which returns
    the receiver. *)
Theorem mutators_write_one_buffer_of_sixteen Math_tan σ this c :
  operands_exist σ this c = true →
  match perform Math_tan this c σ with
  | Ok r σ' =>
      (∃ v, length v = 16 ∧ σ' = <[written this c := v]> σ) ∧
      r = match c with Call_invert _ => this | _ => written this c end
  | Throw e σ' =>
      σ' = σ ∧
      match c with
      | Call_fromArray _ => e = Matrix4.InvalidArgument
      | Call_invert _ => e = Matrix4.SingularMatrix
      | _ => False
      end
  end.
Proof.
  unfold operands_exist. intros [Hthis Hc]%andb_prop.
  apply is_matrix_true in Hthis as (b & Hb & Hlen).
  destruct c; cbn [perform written].
  - rewrite (set_run σ this b) by done. one_buffer.
  - rewrite (identity_run σ this b) by done. one_buffer.
  - unfold Matrix4.deserialise. rewrite (set_run σ this b) by done.
    one_buffer.
  - rewrite (setToProjection_run _ σ this b) by done.
    one_buffer.
  - rewrite (composePos_run σ this b) by done. one_buffer.
  - unfold Matrix4.composeRot. rewrite (composePosRot_run σ this b) by done.
    destruct (rotation_columns rotation) as [[??]?].
    one_buffer.
  - rewrite (composePosRot_run σ this b) by done.
    destruct (rotation_columns rotation) as [[??]?].
    one_buffer.
  - rewrite (composePosRotSca_run σ this b) by done.
    destruct (rotation_columns rotation) as [[??]?].
    one_buffer.
  - apply is_matrix_true in Hc as (r & Hr & Hlenr).
    rewrite (scale_run σ this scale optresult r) by done.
    split; [eexists; split; [|reflexivity]|reflexivity]. by rewrite length_fmap.
  - apply andb_prop in Hc as [Hm Hr].
    apply is_matrix_true in Hm as (m & Hm & _).
    apply is_matrix_true in Hr as (r & Hr & Hlenr).
    rewrite (multiply_run σ this matrix optresult b m r) by done.
    one_buffer.
  - apply andb_prop in Hc as [Hm Hr].
    apply is_matrix_true in Hm as (m & Hm & _).
    apply is_matrix_true in Hr as (r & Hr & Hlenr).
    rewrite (preMultiply_run σ this matrix optresult b m r) by done.
    one_buffer.
  - unfold is_array in Hc. destruct (σ !! values) as [v|] eqn:Hv; [|done].
    rewrite (fromArray_copies_or_rejects σ this values b v) by done.
    destruct (length v <? 16)%nat eqn:Hshort; [done|].
    apply Nat.ltb_ge in Hshort.
    split; [eexists; split; [|reflexivity]|reflexivity]. rewrite length_take. lia.
  - apply is_matrix_true in Hc as (m & Hm & Hlenm).
    unfold Matrix4.copy.
    rewrite (fromArray_copies_or_rejects σ this matrix b m) by done.
    rewrite Hlenm. cbn [Nat.ltb Nat.leb].
    split; [eexists; split; [|reflexivity]|reflexivity]. rewrite length_take. lia.
  - apply is_matrix_true in Hc as (r & Hr & Hlenr).
    destruct (determinant_run σ this) as [d Hd].
    pose proof (invert_run σ this optresult d Hd) as Hrun.
    destruct (d =? 0)%float eqn:Hnz.
    + by rewrite Hrun.
    + destruct (invert_run_ok σ this optresult b r d) as (v & Hv & -> & _);
        try done.
      split; [by exists v|reflexivity].
  - rewrite (transpose_run σ this b) by done. one_buffer.
  - rewrite (resetPos_run σ this b) by done.
    split; [eexists; split; [|reflexivity]|reflexivity].
    sixteen b Hlen. reflexivity.
Qed.

Lemma mutators_write_one_buffer_of_sixteen_witness :
  match perform (λ x, x) 1%positive (Call_invert (Some 2%positive)) two_instances with
  | Ok r σ' =>
      (∃ v, length v = 16 ∧
            σ' = <[written 1%positive (Call_invert (Some 2%positive)) := v]>
                   two_instances) ∧
      r = 1%positive
  | Throw e σ' => σ' = two_instances ∧ e = Matrix4.SingularMatrix
  end.
Proof.
  apply (mutators_write_one_buffer_of_sixteen (λ x, x) two_instances 1%positive
           (Call_invert (Some 2%positive))).
  reflexivity.
Defined.

(** ** Binary64 facts: zeros and finite numbers *)

Definition SFis_zero (x : spec_float) : bool :=
  match x with S754_zero _ => true | _ => false end.

Definition SFis_finite (x : spec_float) : bool :=
  match x with S754_zero _ | S754_finite _ _ _ => true | _ => false end.

Lemma is_zero_Prim2SF x : is_zero x = SFis_zero (Prim2SF x).
Proof.
  unfold is_zero. rewrite FloatAxioms.eqb_spec.
  change (Prim2SF zero) with (S754_zero false).
  by destruct (Prim2SF x) as [[]|[]| |[] m e].
Qed.

Lemma SFeqb_refl_finite s m e : SFeqb (S754_finite s m e) (S754_finite s m e) = true.
Proof.
  unfold SFeqb, SFcompare.
  change (IntDef.Z.compare e e) with (Z.compare e e).
  change (PosDef.Pos.compare_cont Eq m m) with (Pos.compare m m).
  rewrite Z.compare_refl, Pos.compare_refl. by destruct s.
Qed.

Lemma is_finite_Prim2SF x : is_finite x = SFis_finite (Prim2SF x).
Proof.
  unfold is_finite, is_nan, is_infinity. rewrite !FloatAxioms.eqb_spec, FloatAxioms.abs_spec.
  change (Prim2SF infinity) with (S754_infinity false).
  destruct (Prim2SF x) as [[]|[]| |s m e]; try reflexivity.
  rewrite SFeqb_refl_finite. reflexivity.
Qed.

Lemma is_zero_finite x : is_zero x = true → is_finite x = true.
Proof.
  rewrite is_zero_Prim2SF, is_finite_Prim2SF. by destruct (Prim2SF x).
Qed.

Lemma mul_zero_finite x y :
  is_zero x = true → is_finite y = true → is_zero (x * y) = true.
Proof.
  rewrite !is_zero_Prim2SF, is_finite_Prim2SF, FloatAxioms.mul_spec.
  by destruct (Prim2SF x), (Prim2SF y).
Qed.

Lemma mul_finite_zero x y :
  is_finite x = true → is_zero y = true → is_zero (x * y) = true.
Proof.
  rewrite !is_zero_Prim2SF, is_finite_Prim2SF, FloatAxioms.mul_spec.
  by destruct (Prim2SF x), (Prim2SF y).
Qed.

Lemma mul_finite_inv x y :
  is_finite (x * y) = true → is_finite x = true ∧ is_finite y = true.
Proof.
  rewrite !is_finite_Prim2SF, FloatAxioms.mul_spec.
  by destruct (Prim2SF x) as [[]|[]| |[] ? ?], (Prim2SF y) as [[]|[]| |[] ? ?].
Qed.

Lemma add_zero_zero x y :
  is_zero x = true → is_zero y = true → is_zero (x + y) = true.
Proof.
  rewrite !is_zero_Prim2SF, FloatAxioms.add_spec.
  by destruct (Prim2SF x) as [[]|[]| |[] ? ?], (Prim2SF y) as [[]|[]| |[] ? ?].
Qed.

Lemma sub_zero_zero x y :
  is_zero x = true → is_zero y = true → is_zero (x - y) = true.
Proof.
  rewrite !is_zero_Prim2SF, FloatAxioms.sub_spec.
  by destruct (Prim2SF x) as [[]|[]| |[] ? ?], (Prim2SF y) as [[]|[]| |[] ? ?].
Qed.

(** Two numbers that [===] cannot tell apart because they are the same
    number or are both zeros. *)
Definition same_number (x y : float) : Prop :=
  x = y ∨ (is_zero x = true ∧ is_zero y = true).

Lemma add_zero_r x z : is_zero z = true → same_number (x + z) x.
Proof.
  rewrite is_zero_Prim2SF. intros Hz. unfold same_number.
  rewrite !is_zero_Prim2SF, FloatAxioms.add_spec.
  destruct (Prim2SF z) as [sz| | |] eqn:Ez; try discriminate.
  destruct (Prim2SF x) as [[]|[]| |[] m e] eqn:Ex;
    first [ left; apply Prim2SF_inj; rewrite FloatAxioms.add_spec, Ez, Ex; by destruct sz
          | right; by destruct sz ].
Qed.

Lemma add_zero_l x z : is_zero z = true → same_number (z + x) x.
Proof.
  rewrite is_zero_Prim2SF. intros Hz. unfold same_number.
  rewrite !is_zero_Prim2SF, FloatAxioms.add_spec.
  destruct (Prim2SF z) as [sz| | |] eqn:Ez; try discriminate.
  destruct (Prim2SF x) as [[]|[]| |[] m e] eqn:Ex;
    first [ left; apply Prim2SF_inj; rewrite FloatAxioms.add_spec, Ez, Ex; by destruct sz
          | right; by destruct sz ].
Qed.

Lemma same_add_zero_r s x z :
  same_number s x → is_zero z = true → same_number (s + z) x.
Proof.
  intros [->|[Hs Hx]] Hz; [by apply add_zero_r|].
  right. split; [by apply add_zero_zero|done].
Qed.

Lemma same_zero_add_l s x z :
  is_zero z = true → same_number s x → same_number (z + s) x.
Proof.
  intros Hz [->|[Hs Hx]]; [by apply add_zero_l|].
  right. split; [by apply add_zero_zero|done].
Qed.

Lemma same_number_eqb r x :
  same_number r x → is_finite x = true → (r =? x)%float = true.
Proof.
  intros [->|[Hr Hx]].
  - rewrite is_finite_Prim2SF, FloatAxioms.eqb_spec.
    destruct (Prim2SF x) as [[]|[]| |s m e]; try done.
    intros _. apply SFeqb_refl_finite.
  - intros _. revert Hr Hx. rewrite !is_zero_Prim2SF, FloatAxioms.eqb_spec.
    by destruct (Prim2SF r), (Prim2SF x).
Qed.

(** ** Multiplying by the identity *)

Ltac is_zero_sum :=
  lazymatch goal with
  | |- is_zero (0 * _) = true =>
      apply mul_zero_finite; [reflexivity|assumption]
  | |- is_zero (_ * 0) = true =>
      apply mul_finite_zero; [assumption|reflexivity]
  | |- is_zero (_ + _) = true => apply add_zero_zero; is_zero_sum
  end.

Ltac same_as_entry :=
  lazymatch goal with
  | |- same_number (1 * ?x) ?x => left; apply mul_one_l
  | |- same_number (?x * 1) ?x => left; apply mul_one_r
  | |- same_number (_ + _) _ =>
      first [ apply same_add_zero_r; [same_as_entry|is_zero_sum]
            | apply same_zero_add_l; [is_zero_sum|same_as_entry] ]
  end.

Lemma product_identity_l b :
  length b = 16 → forallb is_finite b = true →
  Forall2 same_number
    (product [1; 0; 0; 0; 0; 1; 0; 0; 0; 0; 1; 0; 0; 0; 0; 1]%float b) b.
Proof.
  intros Hlen Hfin. sixteen b Hlen.
  cbn [forallb] in Hfin. repeat (apply andb_prop in Hfin as [? Hfin]).
  unfold product, dot. cbn [lookup_total list_lookup_total Nat.add Nat.mul].
  repeat (apply Forall2_cons; split; [same_as_entry|]).
  apply Forall2_nil_2.
Qed.

Lemma product_identity_r b :
  length b = 16 → forallb is_finite b = true →
  Forall2 same_number
    (product b [1; 0; 0; 0; 0; 1; 0; 0; 0; 0; 1; 0; 0; 0; 0; 1]%float) b.
Proof.
  intros Hlen Hfin. sixteen b Hlen.
  cbn [forallb] in Hfin. repeat (apply andb_prop in Hfin as [? Hfin]).
  unfold product, dot. cbn [lookup_total list_lookup_total Nat.add Nat.mul].
  repeat (apply Forall2_cons; split; [same_as_entry|]).
  apply Forall2_nil_2.
Qed.

Lemma same_numbers_eqb (l b : list float) :
  Forall2 same_number l b → forallb is_finite b = true →
  Forall2 (λ r x, (r =? x)%float = true) l b.
Proof.
  induction 1 as [|r x l b Hrx _ IH]; [constructor|].
  cbn [forallb]. intros [Hx Hb]%andb_prop.
  constructor; [by apply same_number_eqb|by apply IH].
Qed.

(** X18. For every matrix M whose sixteen entries are finite, the product of a new
    (identity) matrix by M, left in the new instance, and the product of M by
    a new matrix, left in M, compare equal to M's entries under [===], entry
    for entry. (A zero entry may come back with the other sign.) *)
Theorem multiply_by_identity_of_finite_matrix σ M b :
  σ !! M = Some b → length b = 16 → forallb is_finite b = true →
  ∃ I l r σ1 σ2,
    (Matrix4.constructor ≫= λ i, Matrix4.multiply i M None) σ = Ok I σ1 ∧
    σ1 !! I = Some l ∧
    (Matrix4.constructor ≫= λ i, Matrix4.multiply M i None) σ = Ok M σ2 ∧
    σ2 !! M = Some r ∧
    Forall2 (λ x y, (x =? y)%float = true) l b ∧
    Forall2 (λ x y, (x =? y)%float = true) r b.
Proof.
  intros Hb Hlen Hfin.
  pose proof (fresh_loc_ne σ M b Hb) as Hne.
  eexists _, _, _, _, _. split; [|split; [|split; [|split; [|split]]]].
  - rewrite (run_bind_ok _ _ _ _ _ (constructor_run σ)). cbv beta.
    eapply (multiply_run _ _ _ None _ b);
      [apply lookup_insert_eq|by rewrite lookup_insert_ne
      |apply lookup_insert_eq|reflexivity].
  - apply lookup_insert_eq.
  - rewrite (run_bind_ok _ _ _ _ _ (constructor_run σ)). cbv beta.
    eapply (multiply_run _ _ _ None b _ b);
      [by rewrite lookup_insert_ne|apply lookup_insert_eq
      |by rewrite lookup_insert_ne|exact Hlen].
  - apply lookup_insert_eq.
  - by apply same_numbers_eqb; [apply product_identity_l|].
  - by apply same_numbers_eqb; [apply product_identity_r|].
Qed.

Lemma multiply_by_identity_of_finite_matrix_witness :
  ∃ I l r σ1 σ2,
    (Matrix4.constructor ≫= λ i, Matrix4.multiply i 1%positive None) two_instances
    = Ok I σ1 ∧
    σ1 !! I = Some l ∧
    (Matrix4.constructor ≫= λ i, Matrix4.multiply 1%positive i None) two_instances
    = Ok 1%positive σ2 ∧
    σ2 !! 1%positive = Some r ∧
    Forall2 (λ x y, (x =? y)%float = true) l sequential ∧
    Forall2 (λ x y, (x =? y)%float = true) r sequential.
Proof.
  apply (multiply_by_identity_of_finite_matrix two_instances 1%positive sequential);
    reflexivity.
Defined.

(** ** A zero row or column *)

(** Row [i] (entries i, 4+i, 8+i, 12+i) or column [i] (entries 4i .. 4i+3)
    holds only zeros, of either sign. *)
Definition zero_row (m : list float) (i : nat) : bool :=
  is_zero m.[i] && is_zero m.[4 + i] && is_zero m.[8 + i] && is_zero m.[12 + i].

Definition zero_column (m : list float) (i : nat) : bool :=
  is_zero m.[4 * i] && is_zero m.[4 * i + 1] && is_zero m.[4 * i + 2]
  && is_zero m.[4 * i + 3].

(** No product of two or of three entries overflows or is NaN. *)
Definition products_finite (m : list float) : bool :=
  forallb (λ x, forallb (λ y,
    is_finite (x * y) && forallb (λ z, is_finite (x * y * z)) m) m) m.

Lemma products_finite_spec m :
  products_finite m = true →
  ∀ x y z, In x m → In y m → In z m →
    is_finite x = true ∧ is_finite (x * y) = true ∧ is_finite (x * y * z) = true.
Proof.
  unfold products_finite. intros H x y z Hx Hy Hz.
  rewrite forallb_forall in H. specialize (H x Hx).
  rewrite forallb_forall in H. specialize (H y Hy).
  apply andb_prop in H as [Hxy H].
  rewrite forallb_forall in H. specialize (H z Hz).
  split; [|done]. by apply mul_finite_inv in Hxy as [? _].
Qed.

Section ZeroTerm.
Variable m : list float.
Hypothesis Hm : products_finite m = true.

Lemma term_zero_1 a b c d :
  In a m → In b m → In c m → In d m →
  is_zero a = true → is_zero (a * b * c * d) = true.
Proof.
  intros Ha Hb Hc Hd Hz.
  destruct (products_finite_spec m Hm b c d Hb Hc Hd) as (Fb & _ & _).
  destruct (products_finite_spec m Hm c d d Hc Hd Hd) as (Fc & _ & _).
  destruct (products_finite_spec m Hm d d d Hd Hd Hd) as (Fd & _ & _).
  by do 3 (apply mul_zero_finite; [|done]).
Qed.

Lemma term_zero_2 a b c d :
  In a m → In b m → In c m → In d m →
  is_zero b = true → is_zero (a * b * c * d) = true.
Proof.
  intros Ha Hb Hc Hd Hz.
  destruct (products_finite_spec m Hm a c d Ha Hc Hd) as (Fa & _ & _).
  destruct (products_finite_spec m Hm c d d Hc Hd Hd) as (Fc & _ & _).
  destruct (products_finite_spec m Hm d d d Hd Hd Hd) as (Fd & _ & _).
  do 2 (apply mul_zero_finite; [|done]). by apply mul_finite_zero.
Qed.

Lemma term_zero_3 a b c d :
  In a m → In b m → In c m → In d m →
  is_zero c = true → is_zero (a * b * c * d) = true.
Proof.
  intros Ha Hb Hc Hd Hz.
  destruct (products_finite_spec m Hm a b d Ha Hb Hd) as (_ & Fab & _).
  destruct (products_finite_spec m Hm d d d Hd Hd Hd) as (Fd & _ & _).
  apply mul_zero_finite; [|done]. by apply mul_finite_zero.
Qed.

Lemma term_zero_4 a b c d :
  In a m → In b m → In c m → In d m →
  is_zero d = true → is_zero (a * b * c * d) = true.
Proof.
  intros Ha Hb Hc Hd Hz.
  destruct (products_finite_spec m Hm a b c Ha Hb Hc) as (_ & _ & Fabc).
  by apply mul_finite_zero.
Qed.
End ZeroTerm.

Ltac entry_of_list := cbn [In]; tauto.

Ltac zero_term Hm :=
  first [ apply (term_zero_1 _ Hm); [entry_of_list..|assumption]
        | apply (term_zero_2 _ Hm); [entry_of_list..|assumption]
        | apply (term_zero_3 _ Hm); [entry_of_list..|assumption]
        | apply (term_zero_4 _ Hm); [entry_of_list..|assumption] ].

Ltac zero_determinant Hm :=
  repeat first [apply add_zero_zero | apply sub_zero_zero]; zero_term Hm.

Lemma determinant_zero_line σ this b :
  σ !! this = Some b → length b = 16 → products_finite b = true →
  (∃ i, i < 4 ∧ (zero_row b i = true ∨ zero_column b i = true)) →
  ∃ d, Matrix4.determinant this σ = Ok d σ ∧ is_zero d = true.
Proof.
  intros Hb Hlen Hm (i & Hi & Hline). eexists.
  unfold Matrix4.determinant. rewrite (run_deref _ _ _ _ Hb).
  split; [reflexivity|].
  sixteen b Hlen.
  cbn [lookup_total list_lookup_total].
  unfold zero_row, zero_column in Hline.
  do 4 (destruct i as [|i]; [
    cbn [lookup_total list_lookup_total Nat.add Nat.mul] in Hline;
    destruct Hline as [Hz|Hz];
    repeat (apply andb_prop in Hz as [Hz ?]);
    zero_determinant Hm|]).
  lia.
Qed.

(** X19. A matrix with a row or a column of zeros, whose products of two and of
    three entries are all finite, has a determinant that is a zero, and
    [invert] throws the SingularMatrix error on it, leaving the heap as it
    was. *)
Theorem zero_line_makes_invert_throw σ this optresult b i :
  σ !! this = Some b → length b = 16 → products_finite b = true →
  i < 4 → zero_row b i = true ∨ zero_column b i = true →
  ∃ d, Matrix4.determinant this σ = Ok d σ ∧ (d =? 0)%float = true ∧
       Matrix4.invert this optresult σ = Throw Matrix4.SingularMatrix σ.
Proof.
  intros Hb Hlen Hm Hi Hline.
  destruct (determinant_zero_line σ this b Hb Hlen Hm) as (d & Hd & Hz);
    [by exists i|].
  exists d. split; [exact Hd|]. split; [exact Hz|].
  pose proof (invert_run σ this optresult d Hd) as Hrun.
  unfold is_zero in Hz. change zero with 0%float in Hz.
  by rewrite Hz in Hrun.
Qed.

(** A heap with a matrix whose third row is zero. *)
Definition singular_instance : heap :=
  {[ 1%positive := [1; 2; 0; 4; 5; 6; 0; 8; 9; 10; 0; 12; 13; 14; 0; 16]%float ]}.

Lemma zero_line_makes_invert_throw_witness :
  ∃ d, Matrix4.determinant 1%positive singular_instance = Ok d singular_instance ∧
       (d =? 0)%float = true ∧
       Matrix4.invert 1%positive None singular_instance
       = Throw Matrix4.SingularMatrix singular_instance.
Proof.
  apply (zero_line_makes_invert_throw singular_instance 1%positive None
           [1; 2; 0; 4; 5; 6; 0; 8; 9; 10; 0; 12; 13; 14; 0; 16]%float 2);
    [reflexivity|reflexivity|vm_compute; reflexivity|lia|left; reflexivity].
Defined.

(** The bound on the products is needed: with a zero third row and 2^600 in
    the twelve other entries, a product of two entries overflows, the
    determinant is NaN, and [invert] returns. *)
Example zero_row_with_overflow_is_inverted :
  let big := 0x1p+600%float in
  let b := [big; big; 0; big; big; big; 0; big;
            big; big; 0; big; big; big; 0; big]%float in
  zero_row b 2 = true ∧
  ∃ σ', Matrix4.invert 1%positive None {[ 1%positive := b ]} = Ok 1%positive σ'.
Proof. split; [reflexivity|]. eexists. vm_compute. reflexivity. Qed.

(** ** invert and fromArray: when they throw *)

(** X20. [invert] throws exactly when the determinant compares equal to zero
    under [===] (so not when it is NaN); it then throws the SingularMatrix
    error and leaves the heap as it was. Otherwise it returns the
    receiver. *)
Theorem invert_throws_iff_determinant_is_zero σ this optresult d :
  Matrix4.determinant this σ = Ok d σ →
  ((d =? 0)%float = true ↔
     Matrix4.invert this optresult σ = Throw Matrix4.SingularMatrix σ) ∧
  ((d =? 0)%float = false ↔
     ∃ σ', Matrix4.invert this optresult σ = Ok this σ') ∧
  ∀ e σ', Matrix4.invert this optresult σ = Throw e σ' →
    e = Matrix4.SingularMatrix ∧ σ' = σ.
Proof.
  intros Hd. pose proof (invert_run σ this optresult d Hd) as Hrun.
  destruct (d =? 0)%float.
  - rewrite Hrun. split; [done|]. split.
    + split; [done|]. by intros [? ?].
    + by intros e σ' [= <- <-].
  - destruct Hrun as [σ'' Hrun]. rewrite Hrun. split; [done|]. split.
    + split; [by exists σ''|done].
    + done.
Qed.

Lemma invert_throws_iff_determinant_is_zero_witness :
  ((0 =? 0)%float = true ↔
     Matrix4.invert 1%positive None singular_instance
     = Throw Matrix4.SingularMatrix singular_instance) ∧
  ((0 =? 0)%float = false ↔
     ∃ σ', Matrix4.invert 1%positive None singular_instance = Ok 1%positive σ') ∧
  ∀ e σ', Matrix4.invert 1%positive None singular_instance = Throw e σ' →
    e = Matrix4.SingularMatrix ∧ σ' = singular_instance.
Proof.
  apply (invert_throws_iff_determinant_is_zero singular_instance 1%positive None
           0%float).
  vm_compute. reflexivity.
Defined.

(** X21. [fromArray(values)] throws the InvalidArgument error, with the heap as it
    was, exactly when the array has fewer than sixteen elements. With sixteen
    or more it returns the receiver holding the first sixteen of them in
    order, and ignores the rest. *)
Theorem fromArray_needs_sixteen_values σ this values b v :
  σ !! this = Some b → length b = 16 → σ !! values = Some v →
  (length v < 16 →
     Matrix4.fromArray this values σ = Throw Matrix4.InvalidArgument σ) ∧
  (16 ≤ length v →
     Matrix4.fromArray this values σ = Ok this (<[this := take 16 v]> σ) ∧
     ∀ i, i < 16 → (take 16 v).[i] = v.[i]).
Proof.
  intros Hb Hlen Hv.
  rewrite (fromArray_copies_or_rejects σ this values b v Hb Hlen Hv).
  split; intros Hn.
  - apply Nat.ltb_lt in Hn. by rewrite Hn.
  - apply Nat.ltb_ge in Hn. rewrite Hn. split; [done|].
    intros i Hi. rewrite !list_lookup_total_alt. by rewrite lookup_take_lt.
Qed.

Lemma fromArray_needs_sixteen_values_witness :
  (length (sequential ++ [17]%float) < 16 →
     Matrix4.fromArray 2%positive 1%positive
       (<[1%positive := sequential ++ [17]%float]> two_instances)
     = Throw Matrix4.InvalidArgument
         (<[1%positive := sequential ++ [17]%float]> two_instances)) ∧
  (16 ≤ length (sequential ++ [17]%float) →
     Matrix4.fromArray 2%positive 1%positive
       (<[1%positive := sequential ++ [17]%float]> two_instances)
     = Ok 2%positive
         (<[2%positive := take 16 (sequential ++ [17]%float)]>
            (<[1%positive := sequential ++ [17]%float]> two_instances)) ∧
     ∀ i, i < 16 →
       (take 16 (sequential ++ [17]%float)).[i] = (sequential ++ [17]%float).[i]).
Proof.
  apply (fromArray_needs_sixteen_values
           (<[1%positive := sequential ++ [17]%float]> two_instances)
           2%positive 1%positive
           [1; 0; 0; 0; 0; 1; 0; 0; 0; 0; 1; 0; 0; 0; 0; 1]%float);
    reflexivity.
Defined.

(** ** Transposing a product *)

Lemma mul_comm (x y : float) : (x * y)%float = (y * x)%float.
Proof. apply Prim2SF_inj. rewrite !FloatAxioms.mul_spec. apply SFmul_comm. Qed.

Lemma transposed_product a b :
  transposed (product a b) = product (transposed b) (transposed a).
Proof.
  unfold transposed, product, dot.
  cbn [lookup_total list_lookup_total Nat.add Nat.mul].
  repeat (f_equal; try apply mul_comm).
Qed.

(** X22. The transpose of a product is the product of the transposes in the
    other order, bit for bit: [this.multiply(matrix).transpose()] leaves in
    the receiver what transposing both instances and then calling
    [this.preMultiply(matrix)] leaves there. *)
Theorem transpose_of_product σ this matrix a b :
  σ !! this = Some a → length a = 16 →
  σ !! matrix = Some b → length b = 16 → this ≠ matrix →
  ∃ v σ1 σ2,
    (Matrix4.multiply this matrix None ≫= Matrix4.transpose) σ = Ok this σ1 ∧
    (Matrix4.transpose this ≫= λ _, Matrix4.transpose matrix ≫= λ _,
       Matrix4.preMultiply this matrix None) σ = Ok this σ2 ∧
    σ1 !! this = Some v ∧ σ2 !! this = Some v.
Proof.
  intros Ha Hlena Hb Hlenb Hne.
  exists (transposed (product a b)). eexists _, _.
  split; [|split; [|split]].
  - rewrite (run_bind_ok _ _ _ _ _ (multiply_run σ this matrix None a b a Ha Hb Ha Hlena)).
    apply (transpose_run _ this (product a b)); [apply lookup_insert_eq|reflexivity].
  - rewrite (run_bind_ok _ _ _ _ _ (transpose_run σ this a Ha Hlena)). cbv beta.
    rewrite (run_bind_ok _ _ _ _ _
               (transpose_run _ matrix b
                  (eq_trans (lookup_insert_ne _ _ _ _ Hne) Hb) Hlenb)).
    cbv beta.
    eapply (preMultiply_run _ this matrix None (transposed a) (transposed b));
      [rewrite lookup_insert_ne by done; apply lookup_insert_eq
      |apply lookup_insert_eq
      |rewrite lookup_insert_ne by done; apply lookup_insert_eq
      |reflexivity].
  - apply lookup_insert_eq.
  - simpl default. rewrite lookup_insert_eq. f_equal. symmetry.
    apply transposed_product.
Qed.

Lemma transpose_of_product_witness :
  ∃ v σ1 σ2,
    (Matrix4.multiply 1%positive 2%positive None ≫= Matrix4.transpose) two_instances
    = Ok 1%positive σ1 ∧
    (Matrix4.transpose 1%positive ≫= λ _, Matrix4.transpose 2%positive ≫= λ _,
       Matrix4.preMultiply 1%positive 2%positive None) two_instances
    = Ok 1%positive σ2 ∧
    σ1 !! 1%positive = Some v ∧ σ2 !! 1%positive = Some v.
Proof.
  apply (transpose_of_product two_instances 1%positive 2%positive sequential
           [1; 0; 0; 0; 0; 1; 0; 0; 0; 0; 1; 0; 0; 0; 0; 1]%float);
    try reflexivity.
  discriminate.
Defined.

(** ** Binary64 facts: dividing by one *)

Section DivideByOne.
Local Open Scope Z_scope.

Lemma binary_round_exact s m e :
  bounded prec emax m e = true →
  binary_round_aux prec emax s (Zpos m) e loc_Exact = S754_finite s m e.
Proof.
  intros Hb. destruct (fexp_canonical m e Hb) as [Hc Hle].
  unfold binary_round_aux, shr_fexp. round_step.
  rewrite Hc, Z.sub_diag. round_step.
  rewrite Hc, Z.sub_diag. round_step.
  apply Z.leb_le in Hle. by rewrite Hle.
Qed.

Lemma shr_doubled m e :
  shr {| shr_m := Zpos m~0; shr_r := false; shr_s := false |} e 1
  = ({| shr_m := Zpos m; shr_r := false; shr_s := false |}, e + 1).
Proof. reflexivity. Qed.

Lemma binary_round_doubled s m e :
  bounded prec emax m e = true →
  binary_round_aux prec emax s (Zpos m~0) (e - 1) loc_Exact = S754_finite s m e.
Proof.
  intros Hb. destruct (fexp_canonical m e Hb) as [Hc Hle].
  unfold binary_round_aux, shr_fexp.
  cbn [Zdigits2 shr_record_of_loc].
  change (Z.pos (digits2_pos m~0)) with (Z.pos (digits2_pos (Nat.iter 1 xO m))).
  rewrite (digits2_iter_xO 1 m).
  replace (Z.pos (digits2_pos m) + Z.of_nat 1 + (e - 1))
    with (Z.pos (digits2_pos m) + e) by lia.
  rewrite Hc. replace (e - (e - 1)) with 1 by lia.
  rewrite shr_doubled. round_step.
  replace (e - 1 + 1) with e by lia.
  rewrite Hc, Z.sub_diag. round_step.
  apply Z.leb_le in Hle. by rewrite Hle.
Qed.

Lemma div_eucl_exact k :
  Z.div_eucl (k * 4503599627370496) 4503599627370496 = (k, 0).
Proof.
  pose proof (Z.div_eucl_eq (k * 4503599627370496) 4503599627370496 ltac:(lia)) as H.
  pose proof (Z.mod_pos_bound (k * 4503599627370496) 4503599627370496 ltac:(lia)) as Hr.
  unfold Z.modulo in Hr.
  destruct (Z.div_eucl (k * 4503599627370496) 4503599627370496) as [q r].
  f_equal; lia.
Qed.

Lemma SFdiv_core_one m e :
  bounded prec emax m e = true →
  SFdiv_core_binary prec emax (Zpos m) e 4503599627370496 (-52)
  = (Zpos m, e, loc_Exact)
  ∨ SFdiv_core_binary prec emax (Zpos m) e 4503599627370496 (-52)
    = (Zpos m~0, e - 1, loc_Exact).
Proof.
  intros Hb. destruct (fexp_canonical m e Hb) as [Hc Hle].
  unfold SFdiv_core_binary. cbn [Zdigits2].
  change (Z.pos (digits2_pos 4503599627370496)) with 53.
  set (d := Z.pos (digits2_pos m)) in *.
  assert (fexp prec emax (d + e - (53 + -52)) = e ∨
          fexp prec emax (d + e - (53 + -52)) = e - 1) as [He|He].
  { revert Hc. unfold fexp, emin, prec, emax. lia. }
  - left. rewrite He.
    replace (Z.min e (e - -52)) with e by lia.
    replace (e - -52 - e) with 52 by lia.
    rewrite Z.shiftl_mul_pow2 by lia. change (2 ^ 52) with 4503599627370496.
    rewrite div_eucl_exact. reflexivity.
  - right. rewrite He.
    replace (Z.min (e - 1) (e - -52)) with (e - 1) by lia.
    replace (e - -52 - (e - 1)) with 53 by lia.
    rewrite Z.shiftl_mul_pow2 by lia.
    replace (Z.pos m * 2 ^ 53) with (Z.pos m~0 * 4503599627370496) by lia.
    rewrite div_eucl_exact. reflexivity.
Qed.

Lemma SFdiv_one_r x :
  valid_binary x = true → SF64div x (Prim2SF 1) = x.
Proof.
  intros Hv. change (Prim2SF 1) with (S754_finite false 4503599627370496 (-52)).
  destruct x as [[]|[]| |s m e]; try reflexivity.
  unfold SF64div, SFdiv. rewrite xorb_false_r.
  destruct (SFdiv_core_one m e Hv) as [->| ->].
  - by apply binary_round_exact.
  - by apply binary_round_doubled.
Qed.

Lemma div_one_r (x : float) : (x / 1)%float = x.
Proof.
  apply Prim2SF_inj. rewrite FloatAxioms.div_spec.
  apply SFdiv_one_r, Prim2SF_valid.
Qed.

End DivideByOne.

(** ** setToProjection *)

(** X23. [setToProjection] overwrites all sixteen entries, whatever the receiver
    held and whatever the arguments: entry 11 is -1, entry 15 is 0, entries 0,
    5, 10 and 14 hold fd/aspect, fd, (far+near)/(near-far) and
    (2*far*near)/(near-far), the ten others are 0. With aspect = 1, entry 0
    is the very number in entry 5. *)
Theorem setToProjection_entries Math_tan σ this b near far fov aspect :
  σ !! this = Some b → length b = 16 →
  ∃ fd,
    fd = (1 / Math_tan ((fov * (Math_PI / 180)) / 2))%float ∧
    Matrix4.setToProjection Math_tan this near far fov aspect σ
    = Ok this
        (<[this := [fd / aspect; 0; 0; 0;
                    0; fd; 0; 0;
                    0; 0; (far + near) / (near - far); -1;
                    0; 0; (2 * far * near) / (near - far); 0]%float]> σ) ∧
    (aspect = 1%float → (fd / aspect)%float = fd).
Proof.
  intros Hb Hlen. eexists. split; [reflexivity|]. split.
  - by apply setToProjection_run with b.
  - intros ->. apply div_one_r.
Qed.

Lemma setToProjection_entries_witness :
  ∃ fd,
    fd = (1 / (λ x, x) ((60 * (Math_PI / 180)) / 2))%float ∧
    Matrix4.setToProjection (λ x, x) 2%positive 1 3 60 1 two_instances
    = Ok 2%positive
        (<[2%positive := [fd / 1; 0; 0; 0;
                          0; fd; 0; 0;
                          0; 0; (3 + 1) / (1 - 3); -1;
                          0; 0; (2 * 3 * 1) / (1 - 3); 0]%float]> two_instances) ∧
    (1%float = 1%float → (fd / 1)%float = fd).
Proof.
  apply (setToProjection_entries (λ x, x) two_instances 2%positive
           [1; 0; 0; 0; 0; 1; 0; 0; 0; 0; 1; 0; 0; 0; 0; 1]%float);
    reflexivity.
Defined.

(** ** The life of a texture *)



(** X25. Uploading twice forgets the first texture: after two successful
    [_executeOnce] (two loads) that created the textures t1 and then t2, no
    call has deleted t1, [bind] binds t2, and [destroy] deletes t2 only. *)
Theorem second_upload_forgets_the_first this t1 t2 this1 calls1 this2 calls2
    location optunit :
  Texture._executeOnce (Some t1) this = Texture.Returned this1 calls1 →
  Texture._executeOnce (Some t2) this1 = Texture.Returned this2 calls2 →
  t1 ≠ t2 →
  ∃ this3 unit,
    Texture.bind this2 location optunit
    = Texture.Returned this2
        [Texture.uniform1i location unit;
         Texture.activeTexture_TEXTURE0_plus unit;
         Texture.bindTexture Texture.TEXTURE_2D (Some t2)] ∧
    Texture.destroy true this2
    = Texture.Returned this3 [Texture.deleteTexture t2] ∧
    Texture.deleteTexture t1 ∉ calls1 ++ calls2 ++ [Texture.deleteTexture t2].
Proof.
  cbn [Texture._executeOnce]. intros [= <- <-] [= <- <-] Hne.
  eexists _, _. split; [reflexivity|]. split; [reflexivity|].
  rewrite list_elem_of_In. cbn [app In]. intros H.
  repeat (destruct H as [H|H]; [try discriminate H|]); [|exact H].
  injection H as ->. by apply Hne.
Qed.

Lemma second_upload_forgets_the_first_witness :
  ∃ this3 unit,
    Texture.bind (Texture.mk "a.png" (Some 6%positive) "anonymous") 1%positive None
    = Texture.Returned (Texture.mk "a.png" (Some 6%positive) "anonymous")
        [Texture.uniform1i 1%positive unit;
         Texture.activeTexture_TEXTURE0_plus unit;
         Texture.bindTexture Texture.TEXTURE_2D (Some 6%positive)] ∧
    Texture.destroy true (Texture.mk "a.png" (Some 6%positive) "anonymous")
    = Texture.Returned this3 [Texture.deleteTexture 6%positive] ∧
    Texture.deleteTexture 5%positive ∉
      [Texture.createTexture;
       Texture.bindTexture Texture.TEXTURE_2D (Some 5%positive);
       Texture.texImage2D_of_image Texture.TEXTURE_2D 0 Texture.RGBA Texture.RGBA
         Texture.UNSIGNED_BYTE;
       Texture.generateMipmap Texture.TEXTURE_2D;
       Texture.texParameteri Texture.TEXTURE_2D Texture.TEXTURE_WRAP_S
         Texture.CLAMP_TO_EDGE;
       Texture.texParameteri Texture.TEXTURE_2D Texture.TEXTURE_WRAP_T
         Texture.CLAMP_TO_EDGE;
       Texture.texParameteri Texture.TEXTURE_2D Texture.TEXTURE_MIN_FILTER
         Texture.LINEAR;
       Texture.bindTexture Texture.TEXTURE_2D None]
      ++ [Texture.createTexture;
          Texture.bindTexture Texture.TEXTURE_2D (Some 6%positive);
          Texture.texImage2D_of_image Texture.TEXTURE_2D 0 Texture.RGBA Texture.RGBA
            Texture.UNSIGNED_BYTE;
          Texture.generateMipmap Texture.TEXTURE_2D;
          Texture.texParameteri Texture.TEXTURE_2D Texture.TEXTURE_WRAP_S
            Texture.CLAMP_TO_EDGE;
          Texture.texParameteri Texture.TEXTURE_2D Texture.TEXTURE_WRAP_T
            Texture.CLAMP_TO_EDGE;
          Texture.texParameteri Texture.TEXTURE_2D Texture.TEXTURE_MIN_FILTER
            Texture.LINEAR;
          Texture.bindTexture Texture.TEXTURE_2D None]
      ++ [Texture.deleteTexture 6%positive].
Proof.
  eapply (second_upload_forgets_the_first (Texture.constructor "a.png")
            5%positive 6%positive); [reflexivity|reflexivity|discriminate].
Defined.
